(** * FluxCover: the high-resolution export of the diffuse shader

    A shallow embedding of [getCanvasDataURL] (components/DiffuseShader.tsx)
    and of the chat-completions [generateCreativeContent]
    (services, GRS AI variant), with the properties of the export
    compositor stated over them. *)

From Stdlib Require Import ZArith QArith Qround String Ascii Bool Lia List Permutation.
From Stdlib.Strings Require Import Byte.
Import ListNotations.

Set Warnings "-register-all".
Local Open Scope nat_scope.

(** ** Typed arrays

    A [Uint8Array] is the list of its bytes.  Its length is fixed at
    allocation; [subarray] is a view of a range and [set] overwrites a range
    in place, raising [RangeError] when the source does not fit. *)
Module Uint8Array.

Definition t := list byte.

(** [new Uint8Array(n)]: [n] zero bytes. *)
Definition make (n : nat) : t := repeat x00 n.

(** [a.subarray(b, e)] for [0 <= b <= e]; both ends are clamped to the
    length of [a], as in JS. *)
Definition subarray (a : t) (b e : nat) : t := firstn (e - b) (skipn b a).

(** [dst.set(src, off)]: [None] stands for the [RangeError] raised when
    [off + src.length > dst.length]. *)
Definition set (dst src : t) (off : nat) : option t :=
  if off + length src <=? length dst
  then Some (firstn off dst ++ src ++ skipn (off + length src) dst)
  else None.

End Uint8Array.

(** ** Step 4 of the export: the vertical flip

    <<
      for (let i = 0; i < targetHeight; i++) {
        const srcRow = i * targetWidth * 4;
        const dstRow = (targetHeight - i - 1) * targetWidth * 4;
        flippedPixels.set(pixels.subarray(srcRow, srcRow + targetWidth * 4), dstRow);
      }
    >> *)
Module Flip.

(** The loop from row [i] on, with [n] iterations left. *)
Fixpoint flip_loop (targetWidth targetHeight : nat) (pixels : Uint8Array.t)
         (n i : nat) (flippedPixels : Uint8Array.t) : option Uint8Array.t :=
  match n with
  | O => Some flippedPixels
  | S n' =>
      let srcRow := i * targetWidth * 4 in
      let dstRow := (targetHeight - i - 1) * targetWidth * 4 in
      match Uint8Array.set flippedPixels
              (Uint8Array.subarray pixels srcRow (srcRow + targetWidth * 4))
              dstRow with
      | Some flippedPixels' =>
          flip_loop targetWidth targetHeight pixels n' (S i) flippedPixels'
      | None => None
      end
  end.

(** The loop run on a given destination array. *)
Definition flip_into (targetWidth targetHeight : nat)
           (pixels flippedPixels : Uint8Array.t) : option Uint8Array.t :=
  flip_loop targetWidth targetHeight pixels targetHeight 0 flippedPixels.

(** The allocation of [flippedPixels] followed by the loop. *)
Definition flipY (targetWidth targetHeight : nat) (pixels : Uint8Array.t)
  : option Uint8Array.t :=
  flip_into targetWidth targetHeight pixels
            (Uint8Array.make (targetWidth * targetHeight * 4)).

(** Scanline [i] of a buffer of rows of [targetWidth] RGBA pixels. *)
Definition row (targetWidth : nat) (buf : Uint8Array.t) (i : nat) : Uint8Array.t :=
  Uint8Array.subarray buf (i * targetWidth * 4) (i * targetWidth * 4 + targetWidth * 4).

(** The first [h] scanlines of a buffer, top to bottom. *)
Fixpoint rows (rowBytes h : nat) (buf : Uint8Array.t) : list Uint8Array.t :=
  match h with
  | O => []
  | S h' => firstn rowBytes buf :: rows rowBytes h' (skipn rowBytes buf)
  end.

End Flip.

(** ** The 2D canvases of the export

    A canvas is kept as its size, the state of its 2D context and the calls
    painted on it, in order.  A canvas drawn onto another one is recorded as
    it was at the time of the call.  Sizes are kept as assigned: the limits a
    browser puts on the size of a canvas are outside the model. *)
Module Canvas2D.

Inductive Filter :=
| FilterNone
| Blur (px : Q).          (* ctx.filter = `blur(${px}px)` *)

Record ImageData := mkImageData {
  data : Uint8Array.t;
  sw : Z;
  sh : Z
}.

(** The drawing calls of the export, over the type [C] of canvases. *)
Inductive Op (C : Type) :=
| PutImageData (imageData : ImageData) (dx dy : Z)
| DrawImage3 (image : C) (dx dy : Z)
| DrawImage5 (image : C) (dx dy dw dh : Z)
| DrawImage9 (image : C) (sx sy sw sh dx dy dw dh : Z).
Arguments PutImageData {C}.
Arguments DrawImage3 {C}.
Arguments DrawImage5 {C}.
Arguments DrawImage9 {C}.

(** A call together with the context state it was issued under. *)
Record Call (C : Type) := mkCall {
  smoothing : bool;
  filtered : Filter;
  op : Op C
}.
Arguments mkCall {C}.
Arguments smoothing {C}.
Arguments filtered {C}.
Arguments op {C}.

Inductive t := mk {
  width : Z;
  height : Z;
  imageSmoothingEnabled : bool;
  filter : Filter;
  painted : list (Call t)
}.

(** [document.createElement('canvas')]: 300 x 150, default context state. *)
Definition create : t := mk 300 150 true FilterNone [].

(** Assigning [width] or [height] resets the bitmap and the context.  The
    record keeps the size that was assigned; whether the element keeps it
    too is told by [holds]. *)
Definition setWidth (c : t) (w : Z) : t := mk w (height c) true FilterNone [].
Definition setHeight (c : t) (h : Z) : t := mk (width c) h true FilterNone [].

(** [width] and [height] of a canvas element are [unsigned long] attributes:
    an assigned size is kept when it lies in [0 .. 2^31 - 1]; any other one
    is replaced by the browser (wrapped, or the default 300 or 150). *)
Definition holds (v : Z) : bool := ((0 <=? v) && (v <=? 2147483647))%Z.


Definition setImageSmoothingEnabled (c : t) (b : bool) : t :=
  mk (width c) (height c) b (filter c) (painted c).

Definition setFilter (c : t) (f : Filter) : t :=
  mk (width c) (height c) (imageSmoothingEnabled c) f (painted c).

Definition paint (c : t) (o : Op t) : t :=
  mk (width c) (height c) (imageSmoothingEnabled c) (filter c)
     (painted c ++ [mkCall (imageSmoothingEnabled c) (filter c) o]).

End Canvas2D.

(** ** The component and its platform *)
Module Shader.

(** The live [<canvas>]: its backing size and its laid-out size. *)
Record HTMLCanvasElement := mkCanvas {
  width : Z;
  height : Z;
  clientWidth : Z;
  clientHeight : Z
}.

(** One call of [renderFrame]: the viewport, [u_time] and [u_resolution]
    it sets before [drawArrays].  The other uniforms come from [propsRef],
    which the export never writes. *)
Record Frame := mkFrame {
  viewport : Z * Z;
  u_time : Q;
  u_resolution : Z * Z
}.

(** The WebGL context, as the frames drawn through it so far. *)
Record WebGLRenderingContext := mkGL { drawn : list Frame }.

Inductive WebGLProgram := Program.

(** The refs of the component that the export reads. *)
Record Refs := mkRefs {
  glRef : option WebGLRenderingContext;
  programRef : option WebGLProgram;
  canvasRef : option HTMLCanvasElement;
  timeRef : Q
}.

(** The three [document.createElement('canvas')] sites of the export. *)
Inductive Site := TempCanvas | ClampedCanvas | FinalCanvas.

(** What the JS engine and the browser decide.
    - [mul]: the product of two JS numbers.  JS numbers are taken as
      rationals (no NaN, no infinity); the product is whatever the engine
      returns, so no statement depends on how it rounds.  Sums and products
      of integers are exact.
    - [getContext2d]: whether [getContext('2d')] returns a context for the
      canvas created at a site ([false] is the [null] result).
    - [gpu]: the RGBA bytes [readPixels(0, 0, w, h)] yields after the given
      draw history, bottom row first. *)
Record Platform := mkPlatform {
  mul : Q -> Q -> Q;
  getContext2d : Site -> bool;
  gpu : list Frame -> Z -> Z -> Uint8Array.t
}.

Inductive DataURL :=
| PNG (canvas : Canvas2D.t).        (* canvas.toDataURL('image/png') *)

Inductive Exception := RangeError | TypeError | DOMException.

(** The refs and the local canvases of one invocation. *)
Record State := mkState {
  refs : Refs;
  tempCanvas : option Canvas2D.t;
  clampedCanvas : option Canvas2D.t;
  finalCanvas : option Canvas2D.t
}.

(** How a statement ends: it falls through to the next one, the function
    returns, or an exception propagates. *)
Inductive Outcome (A : Type) :=
| Next (a : A)
| Return (r : option DataURL)
| Throw (e : Exception).
Arguments Next {A}.
Arguments Return {A}.
Arguments Throw {A}.

Definition Cmd (A : Type) := State -> Outcome A * State.

Definition pure {A} (a : A) : Cmd A := fun st => (Next a, st).
Definition return_ {A} (r : option DataURL) : Cmd A := fun st => (Return r, st).
Definition throw {A} (e : Exception) : Cmd A := fun st => (Throw e, st).

Definition bind {A B} (c : Cmd A) (k : A -> Cmd B) : Cmd B :=
  fun st =>
    match c st with
    | (Next a, st') => k a st'
    | (Return r, st') => (Return r, st')
    | (Throw e, st') => (Throw e, st')
    end.

Notation "x <- c ;; k" := (bind c (fun x => k))
  (at level 61, c at next level, right associativity).
Notation "c ;; k" := (bind c (fun _ => k))
  (at level 61, right associativity).

(** *** Statements *)

Definition getRefs : Cmd Refs := fun st => (Next (refs st), st).

Definition setRefs (r : Refs) : Cmd unit :=
  fun st => (Next tt, mkState r (tempCanvas st) (clampedCanvas st) (finalCanvas st)).

(** [canvas.width = v] and [canvas.height = v] on the live canvas.  The
    record keeps the size assigned, which is the size of the element when
    [Canvas2D.holds v]. *)
Definition setCanvasWidth (v : Z) : Cmd unit :=
  r <- getRefs ;;
  match canvasRef r with
  | Some c =>
      setRefs (mkRefs (glRef r) (programRef r)
                 (Some (mkCanvas v (height c) (clientWidth c) (clientHeight c)))
                 (timeRef r))
  | None => throw TypeError
  end.

Definition setCanvasHeight (v : Z) : Cmd unit :=
  r <- getRefs ;;
  match canvasRef r with
  | Some c =>
      setRefs (mkRefs (glRef r) (programRef r)
                 (Some (mkCanvas (width c) v (clientWidth c) (clientHeight c)))
                 (timeRef r))
  | None => throw TypeError
  end.

(** [renderFrame(gl, program, width, height, timeRef.current)]. *)
Definition renderFrame (w h : Z) : Cmd unit :=
  r <- getRefs ;;
  match glRef r with
  | Some gl =>
      setRefs (mkRefs (Some (mkGL (drawn gl ++ [mkFrame (w, h) (timeRef r) (w, h)])))
                 (programRef r) (canvasRef r) (timeRef r))
  | None => throw TypeError
  end.

(** [new Uint8Array(n)]: a negative length is a [RangeError]. *)
Definition newUint8Array (n : Z) : Cmd Uint8Array.t :=
  if (n <? 0)%Z then throw RangeError else pure (Uint8Array.make (Z.to_nat n)).

(** An array after the bytes [fb] were written into it from index 0: its
    length does not change. *)
Definition filled (pixels fb : Uint8Array.t) : Uint8Array.t :=
  firstn (length pixels) fb ++ skipn (length fb) pixels.

(** [gl.readPixels(0, 0, w, h, gl.RGBA, gl.UNSIGNED_BYTE, pixels)]. *)
Definition readPixels (P : Platform) (w h : Z) (pixels : Uint8Array.t)
  : Cmd Uint8Array.t :=
  r <- getRefs ;;
  match glRef r with
  | Some gl => pure (filled pixels (gpu P (drawn gl) w h))
  | None => throw TypeError
  end.

(** The flip loop.  It is reached with [targetWidth * targetHeight * 4 >= 0]
    only, and iterates only when [targetHeight > 0]: every index it computes
    is then a natural number. *)
Definition flipRows (targetWidth targetHeight : Z)
           (pixels flippedPixels : Uint8Array.t) : Cmd Uint8Array.t :=
  match Flip.flip_into (Z.to_nat targetWidth) (Z.to_nat targetHeight)
          pixels flippedPixels with
  | Some flipped => pure flipped
  | None => throw RangeError
  end.

Definition local (s : Site) (st : State) : option Canvas2D.t :=
  match s with
  | TempCanvas => tempCanvas st
  | ClampedCanvas => clampedCanvas st
  | FinalCanvas => finalCanvas st
  end.

Definition setLocal (s : Site) (c : Canvas2D.t) : Cmd unit :=
  fun st =>
    (Next tt,
     match s with
     | TempCanvas => mkState (refs st) (Some c) (clampedCanvas st) (finalCanvas st)
     | ClampedCanvas => mkState (refs st) (tempCanvas st) (Some c) (finalCanvas st)
     | FinalCanvas => mkState (refs st) (tempCanvas st) (clampedCanvas st) (Some c)
     end).

(** The canvas a local variable holds. *)
Definition the (s : Site) : Cmd Canvas2D.t :=
  fun st =>
    match local s st with
    | Some c => (Next c, st)
    | None => (Throw TypeError, st)
    end.

Definition update (s : Site) (f : Canvas2D.t -> Canvas2D.t) : Cmd unit :=
  c <- the s ;; setLocal s (f c).

Definition createElement (s : Site) : Cmd unit := setLocal s Canvas2D.create.

Definition getContext (P : Platform) (s : Site) : Cmd bool :=
  pure (getContext2d P s).

(** [new ImageData(new Uint8ClampedArray(data), sw, sh)]: the constructor
    throws unless both sides are positive and [data] holds [4 * sw * sh]
    bytes. *)
Definition newImageData (data : Uint8Array.t) (sw sh : Z)
  : Cmd Canvas2D.ImageData :=
  if ((0 <? sw) && (0 <? sh) && (Z.of_nat (length data) =? 4 * sw * sh))%Z
  then pure (Canvas2D.mkImageData data sw sh)
  else throw DOMException.

Definition drawImage (s : Site) (o : Canvas2D.Op Canvas2D.t) : Cmd unit :=
  update s (fun c => Canvas2D.paint c o).

Definition toDataURL (s : Site) : Cmd DataURL :=
  c <- the s ;; pure (PNG c).

(** [x > 0] on JS numbers. *)
Definition positive (x : Q) : bool := negb (Qle_bool x 0).

(** *** The export *)

Import Canvas2D.

Definition getCanvasDataURL_body (P : Platform) (scaleFactor blurRadius : Q)
  : Cmd unit :=
  r <- getRefs ;;
  match glRef r, programRef r, canvasRef r with
  | Some gl, Some program, Some canvas =>
    let originalWidth := Shader.width canvas in
    let originalHeight := Shader.height canvas in

    (* 1. Resize canvas for high-res capture *)
    let targetWidth := Qfloor (mul P (inject_Z (clientWidth canvas)) scaleFactor) in
    let targetHeight := Qfloor (mul P (inject_Z (clientHeight canvas)) scaleFactor) in
    setCanvasWidth targetWidth ;;
    setCanvasHeight targetHeight ;;

    (* 2. Render the frame at high res *)
    renderFrame targetWidth targetHeight ;;

    (* 3. Read pixels directly from WebGL *)
    pixels <- newUint8Array (targetWidth * targetHeight * 4) ;;
    pixels <- readPixels P targetWidth targetHeight pixels ;;

    (* 4. Flip Y-axis *)
    flippedPixels <- newUint8Array (targetWidth * targetHeight * 4) ;;
    flippedPixels <- flipRows targetWidth targetHeight pixels flippedPixels ;;

    (* 5. Put pixels onto a temp 2D canvas *)
    createElement TempCanvas ;;
    update TempCanvas (fun c => setWidth c targetWidth) ;;
    update TempCanvas (fun c => setHeight c targetHeight) ;;
    ctx <- getContext P TempCanvas ;;
    if negb ctx then
      (* Restore *)
      setCanvasWidth originalWidth ;;
      setCanvasHeight originalHeight ;;
      renderFrame originalWidth originalHeight ;;
      return_ None
    else
    imageData <- newImageData flippedPixels targetWidth targetHeight ;;
    drawImage TempCanvas (PutImageData imageData 0 0) ;;

    (* Restore original WebGL canvas size immediately *)
    setCanvasWidth originalWidth ;;
    setCanvasHeight originalHeight ;;
    renderFrame originalWidth originalHeight ;;

    (* 6. Apply Blur Processing if requested *)
    (if positive blurRadius then
       let scaledBlur := mul P blurRadius scaleFactor in
       let pad := Qceiling (mul P scaledBlur 3) in
       createElement ClampedCanvas ;;
       update ClampedCanvas (fun c => setWidth c (targetWidth + pad * 2)) ;;
       update ClampedCanvas (fun c => setHeight c (targetHeight + pad * 2)) ;;
       cCtx <- getContext P ClampedCanvas ;;
       if cCtx then
         update ClampedCanvas (fun c => setImageSmoothingEnabled c false) ;;
         tempCanvas <- the TempCanvas ;;
         (* 1. Draw Center (Main Image) at the offset *)
         drawImage ClampedCanvas (DrawImage5 tempCanvas pad pad targetWidth targetHeight) ;;
         (* 2. Draw Edges: left, right, top, bottom *)
         drawImage ClampedCanvas
           (DrawImage9 tempCanvas 0 0 1 targetHeight 0 pad pad targetHeight) ;;
         drawImage ClampedCanvas
           (DrawImage9 tempCanvas (targetWidth - 1) 0 1 targetHeight
              (targetWidth + pad) pad pad targetHeight) ;;
         drawImage ClampedCanvas
           (DrawImage9 tempCanvas 0 0 targetWidth 1 pad 0 targetWidth pad) ;;
         drawImage ClampedCanvas
           (DrawImage9 tempCanvas 0 (targetHeight - 1) targetWidth 1
              pad (targetHeight + pad) targetWidth pad) ;;
         (* 3. Draw Corners: top-left, top-right, bottom-left, bottom-right *)
         drawImage ClampedCanvas (DrawImage9 tempCanvas 0 0 1 1 0 0 pad pad) ;;
         drawImage ClampedCanvas
           (DrawImage9 tempCanvas (targetWidth - 1) 0 1 1 (targetWidth + pad) 0 pad pad) ;;
         drawImage ClampedCanvas
           (DrawImage9 tempCanvas 0 (targetHeight - 1) 1 1 0 (targetHeight + pad) pad pad) ;;
         drawImage ClampedCanvas
           (DrawImage9 tempCanvas (targetWidth - 1) (targetHeight - 1) 1 1
              (targetWidth + pad) (targetHeight + pad) pad pad) ;;
         (* B. Apply blur to the whole assembled canvas and crop back *)
         createElement FinalCanvas ;;
         update FinalCanvas (fun c => setWidth c targetWidth) ;;
         update FinalCanvas (fun c => setHeight c targetHeight) ;;
         fCtx <- getContext P FinalCanvas ;;
         if fCtx then
           update FinalCanvas (fun c => setFilter c (Blur scaledBlur)) ;;
           clampedCanvas <- the ClampedCanvas ;;
           drawImage FinalCanvas (DrawImage3 clampedCanvas (- pad) (- pad)) ;;
           url <- toDataURL FinalCanvas ;;
           return_ (Some url)
         else pure tt
       else pure tt
     else pure tt) ;;

    url <- toDataURL TempCanvas ;;
    return_ (Some url)
  | _, _, _ => return_ None
  end.

(** One invocation on the refs as they are; the local canvases start unset.
    The caller passes both arguments (the source defaults them to 2 and 0). *)
Definition getCanvasDataURL (P : Platform) (scaleFactor blurRadius : Q) (r : Refs)
  : Outcome unit * State :=
  getCanvasDataURL_body P scaleFactor blurRadius (mkState r None None None).

End Shader.

(** ** The clamp-to-edge assembly, in the words of the specification

    The padded buffer is described as nine copies from regions of the capture
    to regions of the buffer.  [Spec.clamp_to_edge] is written from the
    specification (steps 7d to 7f); it is compared below with the calls
    [getCanvasDataURL] issues. *)
Module Spec.

Record Rect := rect { x : Z; y : Z; w : Z; h : Z }.

Record Copy := copy { from : Rect; to : Rect }.

Section Regions.
Variables targetWidth targetHeight pad : Z.

(** Regions of the capture. *)
Definition whole := rect 0 0 targetWidth targetHeight.
Definition leftColumn := rect 0 0 1 targetHeight.
Definition rightColumn := rect (targetWidth - 1) 0 1 targetHeight.
Definition topRow := rect 0 0 targetWidth 1.
Definition bottomRow := rect 0 (targetHeight - 1) targetWidth 1.
Definition topLeftPixel := rect 0 0 1 1.
Definition topRightPixel := rect (targetWidth - 1) 0 1 1.
Definition bottomLeftPixel := rect 0 (targetHeight - 1) 1 1.
Definition bottomRightPixel := rect (targetWidth - 1) (targetHeight - 1) 1 1.

(** Regions of the padded buffer. *)
Definition centre := rect pad pad targetWidth targetHeight.
Definition leftStrip := rect 0 pad pad targetHeight.
Definition rightStrip := rect (targetWidth + pad) pad pad targetHeight.
Definition topStrip := rect pad 0 targetWidth pad.
Definition bottomStrip := rect pad (targetHeight + pad) targetWidth pad.
Definition topLeftSquare := rect 0 0 pad pad.
Definition topRightSquare := rect (targetWidth + pad) 0 pad pad.
Definition bottomLeftSquare := rect 0 (targetHeight + pad) pad pad.
Definition bottomRightSquare := rect (targetWidth + pad) (targetHeight + pad) pad pad.

Definition clamp_to_edge : list Copy :=
  [ copy whole centre;
    copy leftColumn leftStrip;
    copy rightColumn rightStrip;
    copy topRow topStrip;
    copy bottomRow bottomStrip;
    copy topLeftPixel topLeftSquare;
    copy topRightPixel topRightSquare;
    copy bottomLeftPixel bottomLeftSquare;
    copy bottomRightPixel bottomRightSquare ].
End Regions.

(** Pixel [(px, py)] lies in a region. *)
Definition inside (px py : Z) (r : Rect) : Prop :=
  (x r <= px < x r + w r)%Z /\ (y r <= py < y r + h r)%Z.

(** The regions a [drawImage] call reads and writes; without a source
    rectangle the whole image is read, without a destination size it is
    drawn at its own size. *)
Definition copy_of (o : Canvas2D.Op Canvas2D.t) : option Copy :=
  match o with
  | Canvas2D.PutImageData _ _ _ => None
  | Canvas2D.DrawImage3 image dx dy =>
      Some (copy (rect 0 0 (Canvas2D.width image) (Canvas2D.height image))
                 (rect dx dy (Canvas2D.width image) (Canvas2D.height image)))
  | Canvas2D.DrawImage5 image dx dy dw dh =>
      Some (copy (rect 0 0 (Canvas2D.width image) (Canvas2D.height image))
                 (rect dx dy dw dh))
  | Canvas2D.DrawImage9 _ sx sy sw sh dx dy dw dh =>
      Some (copy (rect sx sy sw sh) (rect dx dy dw dh))
  end.

(** The canvas a [drawImage] call reads. *)
Definition image_of (o : Canvas2D.Op Canvas2D.t) : option Canvas2D.t :=
  match o with
  | Canvas2D.PutImageData _ _ _ => None
  | Canvas2D.DrawImage3 image _ _
  | Canvas2D.DrawImage5 image _ _ _ _
  | Canvas2D.DrawImage9 image _ _ _ _ _ _ _ _ => Some image
  end.

End Spec.

(** ** The content generator (chat-completions variant)

    [generateCreativeContent] is an [async] function whose whole body sits in
    a [try]; the [catch] returns a fixed fallback. *)
Module GrsAi.

(** The values [JSON.parse] and property reads can yield. *)
Inductive JSValue :=
| JUndefined
| JNull
| JBool (b : bool)
| JNumber (q : Q)
| JString (s : string)
| JArray (items : list JSValue)
| JObject (props : list (string * JSValue)).

(** [!!v]. *)
Definition truthy (v : JSValue) : bool :=
  match v with
  | JUndefined | JNull => false
  | JBool b => b
  | JNumber q => negb (Qeq_bool q 0)
  | JString s => negb (String.eqb s "")
  | JArray _ | JObject _ => true
  end.

Definition nullish (v : JSValue) : bool :=
  match v with
  | JUndefined | JNull => true
  | _ => false
  end.

Fixpoint lookup (k : string) (props : list (string * JSValue)) : JSValue :=
  match props with
  | [] => JUndefined
  | (k', v) :: rest => if String.eqb k k' then v else lookup k rest
  end.

(** [v.k] for the property names the function reads ([choices], [message],
    [content], [text], [title], [subtitle], [colors]): only an object can
    have them. *)
Definition prop (v : JSValue) (k : string) : JSValue :=
  match v with
  | JObject props => lookup k props
  | _ => JUndefined
  end.

(** [v[0]]. *)
Definition index0 (v : JSValue) : JSValue :=
  match v with
  | JArray (first :: _) => first
  | JString (String c _) => JString (String c EmptyString)
  | JObject props => lookup "0" props
  | _ => JUndefined
  end.

(** [v?.k], [v?.[0]] and [a ?? b]. *)
Definition opt_prop (v : JSValue) (k : string) : JSValue :=
  if nullish v then JUndefined else prop v k.
Definition opt_index0 (v : JSValue) : JSValue :=
  if nullish v then JUndefined else index0 v.
Definition coalesce (a b : JSValue) : JSValue :=
  if nullish a then b else a.

Definition isArray (v : JSValue) : bool :=
  match v with
  | JArray _ => true
  | _ => false
  end.

(** [v.length] of an array. *)
Definition array_length (v : JSValue) : nat :=
  match v with
  | JArray items => length items
  | _ => 0
  end.

(** The regular expression of the fallback parse.  In the literal
    [/\{[\\s\\S]*\}/] the class holds a backslash, [s] and [S]: a match is
    an opening brace, then characters of the class, then a closing brace. *)
Definition in_class (c : ascii) : bool :=
  (Ascii.eqb c "\" || Ascii.eqb c "s" || Ascii.eqb c "S")%bool.

Fixpoint class_then_brace (s : string) : option string :=
  match s with
  | EmptyString => None
  | String c rest =>
      if Ascii.eqb c "}" then Some (String c EmptyString)
      else if in_class c then option_map (String c) (class_then_brace rest)
      else None
  end.

(** [raw.match(/\{[\\s\\S]*\}/)]: the leftmost match, [None] for [null]. *)
Fixpoint regex_match (s : string) : option string :=
  match s with
  | EmptyString => None
  | String c rest =>
      if Ascii.eqb c "{" then
        match class_then_brace rest with
        | Some m => Some (String c m)
        | None => regex_match rest
        end
      else regex_match rest
  end.

Inductive Lang := en | zh.

(** A settled [fetch]: [text] and [json] are [None] when the promise of
    [res.text()] or [res.json()] rejects. *)
Record Response := mkResponse {
  ok : bool;
  text : option string;
  json : option JSValue
}.

(** What the module and the call depend on.
    - [API_KEY]: the module constant, [None] when neither variable is set.
    - [fetch]: how the request for a mood and a language settles, [None]
      when it rejects.
    - [JSON_parse]: [JSON.parse] of a value (converted to a string first),
      [None] when it throws. *)
Record World := mkWorld {
  API_KEY : option string;
  fetch : string -> Lang -> option Response;
  JSON_parse : JSValue -> option JSValue
}.

Inductive Error :=
| MissingKey
| FetchRejected
| ApiError
| BodyRejected
| NoContent
| SyntaxError
| TypeError
| FailedToParse
| WrongShape.

Definition key_present (k : option string) : bool :=
  match k with
  | Some s => negb (String.eqb s "")
  | None => false
  end.

(** The [try] / [catch] around [JSON.parse(raw)]. *)
Definition parse_response (W : World) (raw : JSValue) : Error + JSValue :=
  match JSON_parse W raw with
  | Some parsed => inr parsed
  | None =>
      match raw with
      | JString s =>
          match regex_match s with
          | Some m0 =>
              match JSON_parse W (JString m0) with
              | Some parsed => inr parsed
              | None => inl SyntaxError
              end
          | None => inl FailedToParse
          end
      | _ => inl TypeError          (* raw.match is not a function *)
      end
  end.

(** The test of the basic validation: [true] when the function throws. *)
Definition rejected_shape (parsed : JSValue) : bool :=
  (negb (truthy parsed)
   || negb (truthy (prop parsed "title"))
   || negb (truthy (prop parsed "subtitle"))
   || negb (isArray (prop parsed "colors"))
   || negb (array_length (prop parsed "colors") =? 5))%bool.

(** [json?.choices?.[0]?.message?.content ?? json?.choices?.[0]?.text ?? '']. *)
Definition content_of (json : JSValue) : JSValue :=
  let choice := opt_index0 (opt_prop json "choices") in
  coalesce (coalesce (opt_prop (opt_prop choice "message") "content")
                     (opt_prop choice "text"))
           (JString "").

(** The body of the [try]. *)
Definition attempt (W : World) (mood : string) (lang : Lang) : Error + JSValue :=
  if negb (key_present (API_KEY W)) then inl MissingKey else
  match fetch W mood lang with
  | None => inl FetchRejected
  | Some res =>
      if negb (ok res) then inl ApiError else
      match json res with
      | None => inl BodyRejected
      | Some json =>
          let raw := content_of json in
          if negb (truthy raw) then inl NoContent else
          match parse_response W raw with
          | inl e => inl e
          | inr parsed =>
              if rejected_shape parsed then inl WrongShape else inr parsed
          end
      end
  end.

Definition fallback (lang : Lang) : JSValue :=
  JObject
    [ ("title", JString match lang with zh => "生成错误" | en => "Error Generating" end);
      ("subtitle", JString match lang with
                           | zh => "请检查API Key或重试。"
                           | en => "Please check your API key or try again."
                           end);
      ("colors", JArray [JString "#ff0000"; JString "#00ff00"; JString "#0000ff";
                         JString "#ffff00"; JString "#00ffff"]) ]%string.

(** How the returned promise settles. *)
Inductive Settled :=
| Resolved (value : JSValue)
| Rejected (reason : Error).

Definition generateCreativeContent (W : World) (mood : string) (lang : Lang)
  : Settled :=
  match attempt W mood lang with
  | inr parsed => Resolved parsed
  | inl _ => Resolved (fallback lang)
  end.

End GrsAi.

(** ** Concrete inputs

    A platform with exact products whose GPU delivers a byte ramp, and a
    mounted component laid out at 3 x 2 CSS pixels with a 300 x 400 backing
    store. *)
Module Fixtures.
Import Shader.

Definition ramp (n : nat) : Uint8Array.t :=
  map (fun i => match Byte.of_nat (i mod 256) with
                | Some b => b
                | None => x00
                end) (seq 0 n).

Definition platform (ctx : Site -> bool) : Platform :=
  mkPlatform Qmult ctx (fun _ w h => ramp (Z.to_nat (w * h * 4))).

Definition all_contexts (s : Site) : bool := true.

Definition no_temp_context (s : Site) : bool :=
  match s with
  | TempCanvas => false
  | _ => true
  end.

Definition no_clamped_context (s : Site) : bool :=
  match s with
  | ClampedCanvas => false
  | _ => true
  end.

Definition no_final_context (s : Site) : bool :=
  match s with
  | FinalCanvas => false
  | _ => true
  end.

Definition mounted : Refs :=
  mkRefs (Some (mkGL [])) (Some Program) (Some (mkCanvas 300 400 3 2)) (1 # 2).

Definition unmounted : Refs := mkRefs None None None 0.

(** The same component laid out at 1 x 1 CSS pixel. *)
Definition mounted_1x1 : Refs :=
  mkRefs (Some (mkGL [])) (Some Program) (Some (mkCanvas 300 400 1 1)) (1 # 2).

(** The width of the padded canvas an export leaves behind. *)
Definition padded_width (blurRadius scaleFactor : Q) : option Z :=
  option_map Canvas2D.width
    (clampedCanvas
       (snd (getCanvasDataURL (platform all_contexts) scaleFactor blurRadius
               mounted_1x1))).

(** A chat-completions reply whose content is the JSON text of a poster. *)
Definition poster : GrsAi.JSValue :=
  GrsAi.JObject
    [ ("title", GrsAi.JString "Quiet Tide");
      ("subtitle", GrsAi.JString "light over slow water");
      ("colors", GrsAi.JArray [GrsAi.JString "#112233"; GrsAi.JString "#445566";
                               GrsAi.JString "#778899"; GrsAi.JString "#aabbcc";
                               GrsAi.JString "#ddeeff"]) ]%string.

Definition reply : GrsAi.JSValue :=
  GrsAi.JObject
    [ ("choices",
       GrsAi.JArray
         [GrsAi.JObject
            [("message", GrsAi.JObject [("content", GrsAi.JString "poster")])]]) ]%string.

(** A parser that knows one text. *)
Definition parse_poster (v : GrsAi.JSValue) : option GrsAi.JSValue :=
  match v with
  | GrsAi.JString s => if String.eqb s "poster" then Some poster else None
  | _ => None
  end.

Definition world : GrsAi.World :=
  GrsAi.mkWorld (Some "key"%string)
    (fun _ _ => Some (GrsAi.mkResponse true None (Some reply)))
    parse_poster.

End Fixtures.

(** ** Strings and numbers of the engine

    A JS string is kept as the bytes of its UTF-8 encoding. *)
Module JSString.

Definition code (a : ascii) : nat := nat_of_ascii a.

(** The white space and line terminators of one byte: TAB, LF, VT, FF, CR
    and the space. *)
Definition white1 (a : ascii) : bool :=
  ((9 <=? code a) && (code a <=? 13)) || (code a =? 32).

(** The first byte of the white space of more than one byte. *)
Definition lead (a : ascii) : bool :=
  (code a =? 194) || (code a =? 225) || (code a =? 226) || (code a =? 227)
  || (code a =? 239).

(** U+00A0. *)
Definition white2 (a b : ascii) : bool := (code a =? 194) && (code b =? 160).

(** U+1680, U+2000 to U+200A, U+2028, U+2029, U+202F, U+205F, U+3000 and
    U+FEFF. *)
Definition white3 (a b c : ascii) : bool :=
  ((code a =? 225) && (code b =? 154) && (code c =? 128))
  || ((code a =? 226) && (code b =? 128)
      && (((128 <=? code c) && (code c <=? 138))
          || (code c =? 168) || (code c =? 169) || (code c =? 175)))
  || ((code a =? 226) && (code b =? 129) && (code c =? 159))
  || ((code a =? 227) && (code b =? 128) && (code c =? 128))
  || ((code a =? 239) && (code b =? 187) && (code c =? 191)).

(** [s.trimStart()]; with [backwards] the bytes of [s] are read last to
    first, as [trimEnd] needs them. *)
Fixpoint strip (backwards : bool) (s : string) : string :=
  match s with
  | EmptyString => s
  | String a r1 =>
      if white1 a then strip backwards r1
      else if (if backwards then negb (Nat.ltb (code a) 128) else lead a) then
        match r1 with
        | String b r2 =>
            if (if backwards then white2 b a else white2 a b) then strip backwards r2
            else
              match r2 with
              | String c r3 =>
                  if (if backwards then white3 c b a else white3 a b c)
                  then strip backwards r3
                  else s
              | EmptyString => s
              end
        | EmptyString => s
        end
      else s
  end.

Definition trimStart (s : string) : string := strip false s.

Definition reverse (s : string) : string :=
  string_of_list_ascii (List.rev (list_ascii_of_string s)).

Definition trimEnd (s : string) : string := reverse (strip true (reverse s)).

(** [s.trim()]. *)
Definition trim (s : string) : string := trimEnd (trimStart s).

(** [s.replace('#', '')]: the first ['#'] is removed. *)
Fixpoint remove_first_hash (s : string) : string :=
  match s with
  | EmptyString => s
  | String a r => if Ascii.eqb a "#" then r else String a (remove_first_hash r)
  end.

End JSString.

Module Number.

(** The numbers [parseInt] can return. *)
Inductive t :=
| NaN
| Infinite (negative : bool)
| Finite (z : Z).

(** The double nearest to a natural number, ties to even; [None] when it
    is too large for a double. *)
Definition nearest_double (n : Z) : option Z :=
  if (n <? 9007199254740992)%Z then Some n          (* below 2^53: exact *)
  else
    let e := (Z.log2 n - 52)%Z in
    let q := Z.shiftr n e in
    let rest := (n mod 2 ^ e)%Z in
    let half := (2 ^ (e - 1))%Z in
    let q' := if ((half <? rest) || ((rest =? half) && Z.odd q))%Z
              then (q + 1)%Z else q in
    if (q' * 2 ^ e <? 2 ^ 1024)%Z then Some (q' * 2 ^ e)%Z else None.

Definition hex_digit (a : ascii) : option Z :=
  let c := JSString.code a in
  if (48 <=? c) && (c <=? 57) then Some (Z.of_nat (c - 48))
  else if (97 <=? c) && (c <=? 102) then Some (Z.of_nat (c - 87))
  else if (65 <=? c) && (c <=? 70) then Some (Z.of_nat (c - 55))
  else None.

(** The longest prefix of hexadecimal digits. *)
Fixpoint hex_prefix (s : string) : list Z :=
  match s with
  | EmptyString => []
  | String a r =>
      match hex_digit a with
      | Some d => d :: hex_prefix r
      | None => []
      end
  end.

Definition hex_value (ds : list Z) : Z :=
  fold_left (fun acc d => (acc * 16 + d)%Z) ds 0%Z.

(** [parseInt(s, 16)]: white space, a sign and [0x] are skipped, then the
    digits are read up to the first character that is none. *)
Definition parseInt16 (s : string) : t :=
  let s := JSString.trimStart s in
  let (negative, s) :=
    match s with
    | String a r =>
        if Ascii.eqb a "-" then (true, r)
        else if Ascii.eqb a "+" then (false, r)
        else (false, s)
    | EmptyString => (false, s)
    end in
  let s :=
    match s with
    | String a (String b r) =>
        if Ascii.eqb a "0" && (Ascii.eqb b "x" || Ascii.eqb b "X") then r else s
    | _ => s
    end in
  match hex_prefix s with
  | [] => NaN
  | ds =>
      match nearest_double (hex_value ds) with
      | Some n => Finite (if negative then (- n)%Z else n)
      | None => Infinite negative
      end
  end.

(** [ToInt32], applied by [>>] and [&] to their operands. *)
Definition toInt32 (x : t) : Z :=
  match x with
  | Finite z => ((z + 2147483648) mod 4294967296 - 2147483648)%Z
  | _ => 0%Z
  end.

End Number.

(** ** The colour helper of the shader *)
Module Colour.

(** The three integers [hexToRgb] divides by 255. *)
Definition channels (hex : string) : Z * Z * Z :=
  let bigint := Number.parseInt16 (JSString.remove_first_hash hex) in
  (Z.land (Z.shiftr (Number.toInt32 bigint) 16) 255,
   Z.land (Z.shiftr (Number.toInt32 bigint) 8) 255,
   Z.land (Number.toInt32 bigint) 255).

(** [hexToRgb]; [div] is the quotient of two JS numbers as the engine
    computes it. *)
Definition hexToRgb (div : Q -> Q -> Q) (hex : string) : Q * Q * Q :=
  let '(r, g, b) := channels hex in
  (div (inject_Z r) 255%Q, div (inject_Z g) 255%Q, div (inject_Z b) 255%Q).

(** The character of a hexadecimal digit, lower or upper case. *)
Definition digit (upper : bool) (d : nat) : ascii :=
  nth d (list_ascii_of_string
           (if upper then "0123456789ABCDEF" else "0123456789abcdef"))
      "0"%char.

End Colour.

(** ** The live loop of the shader component

    As in the export, a size assigned to the canvas is kept as assigned. *)
Module Live.
Import Shader.

(** What [window] gives the loop: the device pixel ratio, the sum of two
    JS numbers as the engine computes it, and the handle the next
    [requestAnimationFrame] returns. *)
Record Window := mkWindow {
  devicePixelRatio : Q;
  add : Q -> Q -> Q;
  requestAnimationFrame : Z
}.

(** The refs the loop works on: those of the export, [requestRef] and the
    speed held in [propsRef]. *)
Record Loop := mkLoop {
  component : Refs;
  requestRef : Z;
  speed : Q
}.

(** [timeRef.current = t]. *)
Definition setTime (t : Q) : Cmd unit :=
  r <- getRefs ;;
  setRefs (mkRefs (glRef r) (programRef r) (canvasRef r) t).

(** The guarded part of [animate]. *)
Definition animate_body (P : Platform) (W : Window) (speed : Q) : Cmd unit :=
  r <- getRefs ;;
  match glRef r, programRef r, canvasRef r with
  | Some gl, Some program, Some canvas =>
      (* Resize if needed - Use Device Pixel Ratio for sharpness *)
      let dpr := if Qeq_bool (devicePixelRatio W) 0 then 1%Q else devicePixelRatio W in
      let displayWidth := Qfloor (mul P (inject_Z (clientWidth canvas)) dpr) in
      let displayHeight := Qfloor (mul P (inject_Z (clientHeight canvas)) dpr) in
      (if (negb (Shader.width canvas =? displayWidth)
           || negb (Shader.height canvas =? displayHeight))%Z
       then setCanvasWidth displayWidth ;; setCanvasHeight displayHeight
       else pure tt) ;;
      setTime (add W (timeRef r) (mul P (1 # 100) speed)) ;;
      r <- getRefs ;;
      match canvasRef r with
      | Some canvas => renderFrame (Shader.width canvas) (Shader.height canvas)
      | None => throw TypeError
      end
  | _, _, _ => pure tt
  end.

(** One run of [animate]: the guarded part, then the next frame is
    requested and its handle kept in [requestRef]. *)
Definition animate (P : Platform) (W : Window) (l : Loop) : Loop :=
  let (_, st) := animate_body P W (speed l) (mkState (component l) None None None) in
  mkLoop (refs st) (requestAnimationFrame W) (speed l).

(** *** The setup effect *)

Inductive ShaderKind := VertexShader | FragmentShader.

(** What WebGL answers during the setup: whether a context, a shader object
    and a program object are obtained, and the compile and link statuses. *)
Record Setup := mkSetup {
  getContextWebgl : bool;
  createShader : ShaderKind -> bool;
  compileStatus : ShaderKind -> bool;
  createProgram : bool;
  linkStatus : bool
}.

(** [compileShader]: whether a shader is returned ([false] is [null]). *)
Definition compileShader (G : Setup) (k : ShaderKind) : bool :=
  if negb (createShader G k) then false
  else if negb (compileStatus G k) then false
  else true.

(** The refs after the setup effect has run on the element [canvasRef]
    holds; [timeRef] starts at 0 and nothing is drawn yet. *)
Definition setup (G : Setup) (canvas : option HTMLCanvasElement) : Refs :=
  match canvas with
  | None => mkRefs None None None 0
  | Some c =>
      if negb (getContextWebgl G) then mkRefs None None (Some c) 0
      else
        let vs := compileShader G VertexShader in
        let fs := compileShader G FragmentShader in
        if negb vs || negb fs then mkRefs (Some (mkGL [])) None (Some c) 0
        else if negb (createProgram G) then mkRefs (Some (mkGL [])) None (Some c) 0
        else if negb (linkStatus G) then mkRefs (Some (mkGL [])) None (Some c) 0
        else mkRefs (Some (mkGL [])) (Some Program) (Some c) 0
  end.

End Live.

(** ** The download handler of the application *)
Module App.
Import Shader.

(** What the page answers during a download: whether the artboard and the
    shader handle are mounted, whether [document.fonts.ready] resolves, what
    [htmlToImage.toPng] makes of the artboard given the overlay shown
    ([None] when it rejects), and [Date.now()]. *)
Record Page := mkPage {
  captureRef : bool;
  shaderRef : bool;
  fontsReady : bool;
  toPng : option DataURL -> option string;
  now : Z
}.

(** A click on a link named [flux-cover-<stamp>.png]. *)
Record Download := mkDownload {
  stamp : Z;
  href : string
}.

Record State := mkApp {
  shader : Refs;
  snapshotUrl : option DataURL;
  alerts : nat;
  downloads : list Download
}.

(** The body of the [try]: the state reached, and whether it threw. *)
Definition attempt (P : Platform) (page : Page) (blur : Q) (s : State)
  : State * bool :=
  let '(s, thrown) :=
    if shaderRef page then
      match getCanvasDataURL P 2 blur (shader s) with
      | (Return (Some nativeShaderUrl), st) =>
          (mkApp (refs st) (Some nativeShaderUrl) (alerts s) (downloads s), false)
      | (Return None, st) | (Next _, st) =>
          (mkApp (refs st) (snapshotUrl s) (alerts s) (downloads s), false)
      | (Throw _, st) =>
          (mkApp (refs st) (snapshotUrl s) (alerts s) (downloads s), true)
      end
    else (s, false) in
  if thrown then (s, true)
  else if negb (fontsReady page) then (s, true)
  else
    match toPng page (snapshotUrl s) with
    | Some dataUrl =>
        (mkApp (shader s) (snapshotUrl s) (alerts s)
               (downloads s ++ [mkDownload (now page) dataUrl]), false)
    | None => (s, true)
    end.

(** [handleDownload]: the guard, the [try], the [catch] that alerts and the
    [finally] that removes the overlay.  These are the steps of the handler
    itself: [shader] is followed through its call of the export only.  The
    frames the live loop draws while the handler waits (on the timeout, the
    fonts and [toPng]) act on the canvas and are not part of it; they touch
    neither the overlay, nor the alerts, nor the downloads. *)
Definition handleDownload (P : Platform) (page : Page) (blur : Q) (s : State)
  : State :=
  if negb (captureRef page) then s
  else
    let (s, thrown) := attempt P page blur s in
    let s := if thrown
             then mkApp (shader s) (snapshotUrl s) (S (alerts s)) (downloads s)
             else s in
    mkApp (shader s) None (alerts s) (downloads s).

End App.

(** ** The handlers of the control panel *)
Module Panel.
Import GrsAi.

(** The configuration, with the values its fields hold at run time. *)
Record CoverConfig := mkConfig {
  title : JSValue;
  subtitle : JSValue;
  colors : JSValue;
  speed : Q;
  grain : Q;
  blur : Q;
  scale : Q;
  fontFamily : string
}.

Record State := mkPanel {
  config : CoverConfig;
  mood : string;
  isGenerating : bool
}.

(** How a handler ends: normally; by throwing, with the state as it was
    left; or with an updater that throws when React applies it. *)
Inductive Completion (A : Type) :=
| Fulfilled (a : A)
| Thrown (a : A)
| RenderError.
Arguments Fulfilled {A}.
Arguments Thrown {A}.
Arguments RenderError {A}.

(** The characters a string iterates over: its code points. *)
Fixpoint characters (s : string) : list string :=
  match s with
  | EmptyString => []
  | String a r1 =>
      if JSString.code a <? 192 then String a EmptyString :: characters r1
      else
        match r1 with
        | String b r2 =>
            if JSString.code a <? 224
            then String a (String b EmptyString) :: characters r2
            else
              match r2 with
              | String c r3 =>
                  if JSString.code a <? 240
                  then String a (String b (String c EmptyString)) :: characters r3
                  else
                    match r3 with
                    | String d r4 =>
                        String a (String b (String c (String d EmptyString)))
                        :: characters r4
                    | EmptyString => [s]
                    end
              | EmptyString => [s]
              end
        | EmptyString => [s]
        end
  end.

(** [[...v]]: [None] when [v] is not iterable. *)
Definition spread (v : JSValue) : option (list JSValue) :=
  match v with
  | JArray items => Some items
  | JString s => Some (map JString (characters s))
  | _ => None
  end.

(** [items[index] = value]: past the end the array grows, the entries in
    between reading [undefined]. *)
Fixpoint assign (items : list JSValue) (index : nat) (value : JSValue)
  : list JSValue :=
  match items, index with
  | _ :: rest, O => value :: rest
  | x :: rest, S i => x :: assign rest i value
  | [], O => [value]
  | [], S i => JUndefined :: assign [] i value
  end.

(** [handleColorChange]: the new configuration. *)
Definition handleColorChange (index : nat) (value : string) (c : CoverConfig)
  : Completion CoverConfig :=
  match spread (colors c) with
  | Some newColors =>
      Fulfilled (mkConfig (title c) (subtitle c)
                   (JArray (assign newColors index (JString value)))
                   (speed c) (grain c) (blur c) (scale c) (fontFamily c))
  | None => Thrown c
  end.

(** [handleGenerate]: a blank mood returns at once; otherwise the spinner
    is set, the content awaited, and the updater
    [prev => ({...prev, title, subtitle, colors})] and the end of the spinner
    are queued.  The updater reads [result.title], which throws on a nullish
    result. *)
Definition handleGenerate (W : World) (lang : Lang) (p : State)
  : Completion State :=
  if negb (truthy (JString (JSString.trim (mood p)))) then Fulfilled p
  else
    match generateCreativeContent W (mood p) lang with
    | Rejected _ => Thrown (mkPanel (config p) (mood p) true)
    | Resolved result =>
        if nullish result then RenderError
        else
          let prev := config p in
          Fulfilled
            (mkPanel
               (mkConfig (prop result "title") (prop result "subtitle")
                  (prop result "colors")
                  (speed prev) (grain prev) (blur prev) (scale prev)
                  (fontFamily prev))
               (mood p) false)
    end.

(** The configuration the application starts with. *)
Definition initial : CoverConfig :=
  mkConfig (JString "The Art of
Diffusion.")
           (JString "Exploring the boundaries between 
color, light, and code.")
           (JArray [JString "#FF5733"; JString "#C70039"; JString "#900C3F";
                    JString "#581845"; JString "#FFC300"])
           (1 # 2) (15 # 100) 40 1 "Inter".

(** The panel states the controls can lead to: a mood is typed; a field
    other than the palette is edited (title, subtitle, font, sliders); a
    swatch calls [handleColorChange] with its own position in the palette;
    [handleGenerate] completes. *)
Inductive Reachable (W : World) (lang : Lang) : State -> Prop :=
| reach_start : Reachable W lang (mkPanel initial "" false)
| reach_mood p m :
    Reachable W lang p ->
    Reachable W lang (mkPanel (config p) m (isGenerating p))
| reach_edit p c' :
    Reachable W lang p ->
    colors c' = colors (config p) ->
    Reachable W lang (mkPanel c' (mood p) (isGenerating p))
| reach_color p index value items c' :
    Reachable W lang p ->
    colors (config p) = JArray items -> index < length items ->
    handleColorChange index value (config p) = Fulfilled c' ->
    Reachable W lang (mkPanel c' (mood p) (isGenerating p))
| reach_generate p p' :
    Reachable W lang p ->
    handleGenerate W lang p = Fulfilled p' ->
    Reachable W lang p'.

End Panel.

(** ** More concrete inputs *)
Module Samples.

Definition window : Live.Window := Live.mkWindow 2 Qplus 7.

Definition loop : Live.Loop := Live.mkLoop Fixtures.mounted 0 (1 # 2).

(** A layout collapsed to nothing. *)
Definition collapsed : Shader.Refs :=
  Shader.mkRefs (Some (Shader.mkGL [])) (Some Shader.Program)
    (Some (Shader.mkCanvas 300 400 0 0)) (1 # 2).

Definition no_context : Live.Setup :=
  Live.mkSetup false (fun _ => true) (fun _ => true) true true.

Definition working : Live.Setup :=
  Live.mkSetup true (fun _ => true) (fun _ => true) true true.

Definition page : App.Page :=
  App.mkPage true true true (fun _ => Some "data:image/png;base64,AAAA"%string) 1700000000.

Definition app (r : Shader.Refs) : App.State := App.mkApp r None 0 [].

Definition panel (m : string) : Panel.State :=
  Panel.mkPanel Panel.initial m false.

(** The panel after a mood was typed and a content generated from it. *)
Definition generated : Panel.State :=
  match Panel.handleGenerate Fixtures.world GrsAi.en (panel "calm harbour") with
  | Panel.Fulfilled p => p
  | _ => panel "calm harbour"
  end.

(** The same after its third swatch was changed. *)
Definition recoloured : Panel.State :=
  match Panel.handleColorChange 2 "#00ff00" (Panel.config generated) with
  | Panel.Fulfilled c => Panel.mkPanel c (Panel.mood generated) (Panel.isGenerating generated)
  | _ => generated
  end.

End Samples.

(** ** Symbolic execution of the statements *)

Ltac run :=
  cbv beta iota zeta delta
      [Shader.bind Shader.pure Shader.return_ Shader.throw Shader.getRefs Shader.setRefs
       Shader.setCanvasWidth Shader.setCanvasHeight Shader.renderFrame Shader.readPixels
       Shader.createElement Shader.update Shader.the Shader.local Shader.setLocal
       Shader.getContext Shader.drawImage Shader.toDataURL Shader.newUint8Array
       Shader.flipRows Shader.newImageData
       Shader.refs Shader.tempCanvas Shader.clampedCanvas Shader.finalCanvas
       Shader.glRef Shader.programRef Shader.canvasRef Shader.timeRef
       Shader.drawn Shader.width Shader.height Shader.clientWidth Shader.clientHeight
       fst snd
       Canvas2D.create Canvas2D.setWidth Canvas2D.setHeight Canvas2D.paint
       Canvas2D.setImageSmoothingEnabled Canvas2D.setFilter
       Canvas2D.width Canvas2D.height Canvas2D.imageSmoothingEnabled Canvas2D.filter
       Canvas2D.painted];
  cbn [app negb].

Ltac run_in H :=
  cbv beta iota zeta delta
      [Shader.bind Shader.pure Shader.return_ Shader.throw Shader.getRefs Shader.setRefs
       Shader.setCanvasWidth Shader.setCanvasHeight Shader.renderFrame Shader.readPixels
       Shader.createElement Shader.update Shader.the Shader.local Shader.setLocal
       Shader.getContext Shader.drawImage Shader.toDataURL Shader.newUint8Array
       Shader.flipRows Shader.newImageData
       Shader.refs Shader.tempCanvas Shader.clampedCanvas Shader.finalCanvas
       Shader.glRef Shader.programRef Shader.canvasRef Shader.timeRef
       Shader.drawn Shader.width Shader.height Shader.clientWidth Shader.clientHeight
       fst snd
       Canvas2D.create Canvas2D.setWidth Canvas2D.setHeight Canvas2D.paint
       Canvas2D.setImageSmoothingEnabled Canvas2D.setFilter
       Canvas2D.width Canvas2D.height Canvas2D.imageSmoothingEnabled Canvas2D.filter
       Canvas2D.painted] in H;
  cbn [app negb] in H.

(** Case analysis on the next test the execution in [H] is stuck on. *)
Ltac branch_in H :=
  match type of H with
  | context [match Flip.flip_into ?a ?b ?c ?d with _ => _ end] =>
      destruct (Flip.flip_into a b c d) eqn:?
  | context [if negb ?c then _ else _] => destruct c eqn:?
  | context [if ?c then _ else _] => destruct c eqn:?
  end;
  run_in H.

(** * Properties *)

Section FlipFacts.
Import Uint8Array Flip.

Lemma rows_length rb h buf : length (rows rb h buf) = h.
Proof. revert buf; induction h; simpl; intros; [reflexivity | now rewrite IHh]. Qed.

Lemma rows_each rb h buf :
  length buf = h * rb -> Forall (fun r => length r = rb) (rows rb h buf).
Proof.
  revert buf; induction h; simpl; intros buf H; constructor.
  - rewrite length_firstn. lia.
  - apply IHh. rewrite length_skipn. lia.
Qed.

Lemma concat_rows rb h buf :
  length buf = h * rb -> concat (rows rb h buf) = buf.
Proof.
  revert buf; induction h; simpl; intros buf H.
  - destruct buf; [reflexivity | discriminate].
  - rewrite IHh by (rewrite length_skipn; lia). apply firstn_skipn.
Qed.

Lemma rows_concat rb (ls : list Uint8Array.t) :
  Forall (fun r => length r = rb) ls ->
  rows rb (length ls) (concat ls) = ls.
Proof.
  induction 1 as [|r ls Hr _ IH]; simpl; [reflexivity|].
  rewrite firstn_app, Hr, Nat.sub_diag, firstn_all2 by lia. simpl.
  rewrite app_nil_r. f_equal.
  rewrite skipn_app, Hr, Nat.sub_diag, skipn_all2 by lia. simpl. exact IH.
Qed.

Lemma length_concat_rows rb (ls : list Uint8Array.t) :
  Forall (fun r => length r = rb) ls -> length (concat ls) = length ls * rb.
Proof.
  induction 1 as [|r ls Hr _ IH]; simpl; [reflexivity|].
  rewrite length_app, IH, Hr. reflexivity.
Qed.

Lemma nth_rows rb h buf i :
  i < h -> nth i (rows rb h buf) [] = firstn rb (skipn (i * rb) buf).
Proof.
  revert buf i; induction h; intros buf i Hi; [lia|].
  destruct i; simpl; [reflexivity|].
  rewrite IHh by lia. rewrite skipn_skipn. f_equal. f_equal. lia.
Qed.

(** Scanline [i], read through [subarray], is the [i]-th element of [rows]. *)
Lemma row_nth w h buf i :
  i < h -> row w buf i = nth i (rows (w * 4) h buf) [].
Proof.
  intros Hi. rewrite nth_rows by exact Hi. unfold row, subarray.
  replace (i * w * 4 + w * 4 - i * w * 4) with (w * 4) by lia.
  replace (i * w * 4) with (i * (w * 4)) by lia. reflexivity.
Qed.

Lemma firstn_snoc {A} (d : A) (l : list A) k :
  k < length l -> firstn (S k) l = firstn k l ++ [nth k l d].
Proof.
  revert l; induction k; intros [|x l] H; simpl in *; try lia; [reflexivity|].
  f_equal. apply IHk. lia.
Qed.

(** The loop invariant: with rows [0 .. k-1] already copied, the destination
    is some prefix [pre] (rows not written yet) followed by those rows in
    reverse order. *)
Lemma flip_loop_inv w h pixels n k pre :
  length pixels = h * (w * 4) ->
  k + n = h ->
  length pre = n * (w * 4) ->
  flip_loop w h pixels n k
    (pre ++ concat (rev (firstn k (rows (w * 4) h pixels))))
  = Some (concat (rev (rows (w * 4) h pixels))).
Proof.
  intros Hlen. revert k pre; induction n; intros k pre Hk Hpre.
  - destruct pre; [|discriminate]. simpl.
    rewrite firstn_all2 by (rewrite rows_length; lia). reflexivity.
  - cbn [flip_loop].
    fold (row w pixels k). rewrite (row_nth w h) by lia.
    set (rs := rows (w * 4) h pixels) in *.
    assert (Hr : length (nth k rs []) = w * 4).
    { pose proof (rows_each (w * 4) h pixels Hlen) as F.
      rewrite Forall_forall in F. apply F, nth_In. unfold rs.
      rewrite rows_length. lia. }
    replace (h - k - 1) with n in * by lia.
    unfold set. rewrite Hr, length_app.
    replace (n * w * 4 + w * 4) with (S n * (w * 4)) by lia.
    rewrite <- Hpre.
    destruct (Nat.leb_spec (length pre) (length pre + length (concat (rev (firstn k rs)))));
      [|lia].
    rewrite skipn_app, skipn_all, Nat.sub_diag. cbn [skipn app].
    rewrite firstn_app.
    replace (n * w * 4 - length pre) with 0 by lia.
    cbn [firstn]. rewrite app_nil_r.
    specialize (IHn (S k) (firstn (n * w * 4) pre)).
    rewrite (@firstn_snoc t [] rs k) in IHn by (unfold rs; rewrite rows_length; lia).
    rewrite rev_app_distr in IHn. cbn [rev app concat] in IHn.
    rewrite <- IHn; [reflexivity| lia |].
    rewrite length_firstn. lia.
Qed.

(** What the loop computes on a destination of the right size: the
    scanlines of the readback in reverse order. *)
Lemma flip_into_rows w h pixels dst :
  length pixels = w * h * 4 -> length dst = w * h * 4 ->
  flip_into w h pixels dst = Some (concat (rev (rows (w * 4) h pixels))).
Proof.
  intros Hp Hd. unfold flip_into.
  rewrite <- (flip_loop_inv w h pixels h 0 dst) by lia.
  cbn [firstn rev concat]. now rewrite app_nil_r.
Qed.

Lemma flipY_rows w h pixels :
  length pixels = w * h * 4 ->
  flipY w h pixels = Some (concat (rev (rows (w * 4) h pixels))).
Proof.
  intros Hp. apply flip_into_rows; [exact Hp|]. unfold make. apply repeat_length.
Qed.

Lemma rev_rows_each w h pixels :
  length pixels = w * h * 4 ->
  Forall (fun r => length r = w * 4) (rev (rows (w * 4) h pixels)).
Proof.
  intros Hp. apply Forall_rev, rows_each. lia.
Qed.

Lemma flipped_length w h pixels :
  length pixels = w * h * 4 ->
  length (concat (rev (rows (w * 4) h pixels))) = w * h * 4.
Proof.
  intros Hp. rewrite (length_concat_rows (w * 4)) by now apply rev_rows_each.
  rewrite length_rev, rows_length. lia.
Qed.

Lemma rows_flipped w h pixels :
  length pixels = w * h * 4 ->
  rows (w * 4) h (concat (rev (rows (w * 4) h pixels)))
  = rev (rows (w * 4) h pixels).
Proof.
  intros Hp.
  rewrite <- (rows_length (w * 4) h pixels) at 1.
  rewrite <- length_rev. apply rows_concat. now apply rev_rows_each.
Qed.

(** C6.  The flip copies source row [i] to destination row [h - i - 1] for
    every [i < h], each scanline of [w * 4] bytes unchanged: on a readback
    of [w * h * 4] bytes the loop succeeds, and row [i] of its output is
    row [h - 1 - i] of the readback. *)
Theorem flip_maps_rows w h pixels :
  length pixels = w * h * 4 ->
  exists flipped,
    flipY w h pixels = Some flipped
    /\ length flipped = w * h * 4
    /\ forall i, i < h ->
         length (row w pixels i) = w * 4
         /\ row w flipped (h - i - 1) = row w pixels i
         /\ row w flipped i = row w pixels (h - 1 - i).
Proof.
  intros Hp. exists (concat (rev (rows (w * 4) h pixels))).
  split; [now apply flipY_rows|]. split; [now apply flipped_length|].
  assert (R : forall j, j < h ->
              row w (concat (rev (rows (w * 4) h pixels))) j
              = row w pixels (h - 1 - j)).
  { intros j Hj. rewrite (row_nth w h) by exact Hj.
    rewrite rows_flipped by exact Hp.
    rewrite rev_nth by (rewrite rows_length; exact Hj).
    rewrite rows_length, (row_nth w h) by lia.
    f_equal. lia. }
  intros i Hi. split; [|split].
  - rewrite (row_nth w h) by exact Hi.
    pose proof (rows_each (w * 4) h pixels) as F.
    rewrite Forall_forall in F. apply F; [lia|].
    apply nth_In. rewrite rows_length. exact Hi.
  - rewrite R by lia. f_equal. lia.
  - apply R, Hi.
Qed.

(** C9.  The flip is an involution on buffers of [w * h * 4] bytes:
    flipping the flipped buffer gives the readback back.  The scanlines of
    the output are those of the input in reverse order, a permutation: no
    scanline is lost or duplicated. *)
Theorem flip_involution w h pixels :
  length pixels = w * h * 4 ->
  exists flipped,
    flipY w h pixels = Some flipped
    /\ flipY w h flipped = Some pixels
    /\ rows (w * 4) h flipped = rev (rows (w * 4) h pixels)
    /\ Permutation (rows (w * 4) h flipped) (rows (w * 4) h pixels).
Proof.
  intros Hp. exists (concat (rev (rows (w * 4) h pixels))).
  split; [now apply flipY_rows|].
  pose proof (rows_flipped w h pixels Hp) as Hr.
  split; [|split].
  - rewrite flipY_rows by now apply flipped_length.
    rewrite Hr, rev_involutive, concat_rows by lia. reflexivity.
  - exact Hr.
  - rewrite Hr. apply Permutation_sym, Permutation_rev.
Qed.
End FlipFacts.

(** *** The flip at work on a 2 x 2 readback *)

Lemma flip_maps_rows_witness :
  exists flipped,
    Flip.flipY 2 2 (Fixtures.ramp 16) = Some flipped
    /\ Flip.row 2 flipped 0 = Flip.row 2 (Fixtures.ramp 16) 1.
Proof.
  destruct (flip_maps_rows 2 2 (Fixtures.ramp 16) eq_refl)
    as (flipped & Hf & _ & Hrows).
  exists flipped. split; [exact Hf|].
  exact (proj2 (proj2 (Hrows 0 (le_S 1 1 (le_n 1))))).
Defined.

Lemma flip_involution_witness :
  exists flipped,
    Flip.flipY 2 2 (Fixtures.ramp 16) = Some flipped
    /\ Flip.flipY 2 2 flipped = Some (Fixtures.ramp 16).
Proof.
  destruct (flip_involution 2 2 (Fixtures.ramp 16) eq_refl)
    as (flipped & Hf & Hb & _).
  exists flipped. split; [exact Hf | exact Hb].
Defined.

Section ExportFacts.
Import Shader.

Lemma filled_length pixels fb : length (filled pixels fb) = length pixels.
Proof.
  unfold filled. rewrite length_app, length_firstn, length_skipn. lia.
Qed.

Lemma make_length n : length (Uint8Array.make n) = n.
Proof. apply repeat_length. Qed.

Lemma to_nat_area tw th :
  (0 <= tw)%Z -> (0 <= th)%Z ->
  Z.to_nat (tw * th * 4) = Z.to_nat tw * Z.to_nat th * 4.
Proof. intros. rewrite !Z2Nat.inj_mul by nia. reflexivity. Qed.

(** The loop of the export, on the arrays the export allocates, is [flipY]
    of the readback. *)
Lemma flip_into_flipY tw th fb :
  (0 <= tw)%Z -> (0 <= th)%Z ->
  Flip.flip_into (Z.to_nat tw) (Z.to_nat th)
    (filled (Uint8Array.make (Z.to_nat (tw * th * 4))) fb)
    (Uint8Array.make (Z.to_nat (tw * th * 4)))
  = Flip.flipY (Z.to_nat tw) (Z.to_nat th)
      (filled (Uint8Array.make (Z.to_nat (tw * th * 4))) fb).
Proof.
  intros. unfold Flip.flipY. now rewrite to_nat_area.
Qed.

Lemma flipY_total tw th fb :
  (0 <= tw)%Z -> (0 <= th)%Z ->
  exists flipped,
    Flip.flipY (Z.to_nat tw) (Z.to_nat th)
      (filled (Uint8Array.make (Z.to_nat (tw * th * 4))) fb) = Some flipped
    /\ length flipped = Z.to_nat (tw * th * 4).
Proof.
  intros Hw Hh.
  assert (L : length (filled (Uint8Array.make (Z.to_nat (tw * th * 4))) fb)
              = Z.to_nat tw * Z.to_nat th * 4)
    by (rewrite filled_length, make_length; now apply to_nat_area).
  eexists; split; [apply flipY_rows, L|].
  rewrite flipped_length by exact L. symmetry. now apply to_nat_area.
Qed.

Lemma area_nonneg tw th :
  (0 <= tw)%Z -> (0 <= th)%Z -> (tw * th * 4 <? 0)%Z = false.
Proof. intros. apply Z.ltb_ge. nia. Qed.

(** A readback of the size asked for fills the array from end to end. *)
Lemma filled_exact pixels fb : length fb = length pixels -> filled pixels fb = fb.
Proof.
  intros E. unfold filled. rewrite <- E, firstn_all, skipn_all2 by lia.
  apply app_nil_r.
Qed.

(** Byte [k] of scanline [i]. *)
Lemma nth_row w buf i k :
  k < w * 4 ->
  nth k (Flip.row w buf i) x00 = nth (i * (w * 4) + k) buf x00.
Proof.
  intros Hk. unfold Flip.row, Uint8Array.subarray.
  replace (i * w * 4 + w * 4 - i * w * 4) with (w * 4) by lia.
  rewrite nth_firstn.
  destruct (Nat.ltb_spec k (w * 4)) as [_|H]; [|lia].
  rewrite nth_skipn. f_equal. lia.
Qed.

(** What [flipY] returns, byte by byte. *)
Lemma flipY_bytes w h pixels flipped :
  length pixels = w * h * 4 ->
  Flip.flipY w h pixels = Some flipped ->
  length flipped = w * h * 4
  /\ forall i k, i < h -> k < w * 4 ->
       nth (i * (w * 4) + k) flipped x00
       = nth ((h - 1 - i) * (w * 4) + k) pixels x00.
Proof.
  intros Hp Hf. rewrite flipY_rows in Hf by exact Hp.
  inversion Hf; subst flipped; clear Hf.
  split; [now apply flipped_length|].
  intros i k Hi Hk.
  rewrite <- !nth_row by exact Hk. f_equal.
  rewrite (row_nth w h) by exact Hi.
  rewrite rows_flipped by exact Hp.
  rewrite rev_nth by (rewrite rows_length; exact Hi).
  rewrite rows_length, (row_nth w h) by lia.
  f_equal. lia.
Qed.

Lemma imageData_ok tw th (flipped : Uint8Array.t) :
  (0 < tw)%Z -> (0 < th)%Z -> length flipped = Z.to_nat (tw * th * 4) ->
  ((0 <? tw)%Z && (0 <? th)%Z && (Z.of_nat (length flipped) =? 4 * tw * th)%Z)%bool
  = true.
Proof.
  intros Hw Hh L. rewrite L, Z2Nat.id by nia.
  rewrite !andb_true_iff, !Z.ltb_lt, Z.eqb_eq. lia.
Qed.

(** Every returning run of a mounted component: the refs at return, and
    what is returned. *)
Lemma returns_classified P sf blur frames program w h cw ch t res st' :
  getCanvasDataURL P sf blur
    (mkRefs (Some (mkGL frames)) (Some program) (Some (mkCanvas w h cw ch)) t)
  = (Return res, st') ->
  let tw := Qfloor (mul P (inject_Z cw) sf) in
  let th := Qfloor (mul P (inject_Z ch) sf) in
  refs st' = mkRefs (Some (mkGL (frames ++ [mkFrame (tw, th) t (tw, th);
                                            mkFrame (w, h) t (w, h)])))
                    (Some program) (Some (mkCanvas w h cw ch)) t
  /\ match res with
     | None => getContext2d P TempCanvas = false
     | Some (PNG image) => Canvas2D.width image = tw /\ Canvas2D.height image = th
     end.
Proof.
  intros H tw th.
  unfold getCanvasDataURL, getCanvasDataURL_body in H. run_in H.
  fold tw th in H.
  repeat branch_in H; inversion H; subst; clear H; cbn;
    rewrite <- ?app_assoc; auto.
Qed.

(** The guard at the head of the export. *)
Lemma run_unmounted P sf blur r :
  glRef r = None \/ programRef r = None \/ canvasRef r = None ->
  getCanvasDataURL P sf blur r = (Return None, mkState r None None None).
Proof.
  destruct r as [[gl|] [program|] [canvas|] t]; cbn [glRef programRef canvasRef];
    intros [H|[H|H]]; try discriminate H; reflexivity.
Qed.

(** C4.  Invoked while the WebGL context, the program or the canvas
    element is [null], the export returns [null]: no exception propagates
    and nothing is mutated, the refs (canvas size, frames drawn) are as
    they were. *)
Theorem uninitialised_returns_null P sf blur r :
  glRef r = None \/ programRef r = None \/ canvasRef r = None ->
  getCanvasDataURL P sf blur r = (Return None, mkState r None None None)
  /\ refs (snd (getCanvasDataURL P sf blur r)) = r
  /\ forall e, fst (getCanvasDataURL P sf blur r) <> Throw e.
Proof.
  intros H. rewrite (run_unmounted P sf blur r H).
  repeat split. intros e. discriminate.
Qed.

(** C1.  Whenever the export returns a data URL, the encoded image is
    [floor(clientWidth * scaleFactor)] wide and
    [floor(clientHeight * scaleFactor)] high, the products being those of
    the engine; this needs no bound on [scaleFactor] or [blurRadius], so it
    holds for [scaleFactor >= 1] and [blurRadius >= 0].  The size does not
    depend on the blur radius: two successful exports at the same scale
    have the same size. *)
Theorem output_dimensions P sf blur r image st' :
  getCanvasDataURL P sf blur r = (Return (Some (PNG image)), st') ->
  exists canvas,
    canvasRef r = Some canvas
    /\ Canvas2D.width image = Qfloor (mul P (inject_Z (clientWidth canvas)) sf)
    /\ Canvas2D.height image = Qfloor (mul P (inject_Z (clientHeight canvas)) sf)
    /\ forall blur' image' st'',
         getCanvasDataURL P sf blur' r = (Return (Some (PNG image')), st'') ->
         Canvas2D.width image' = Canvas2D.width image
         /\ Canvas2D.height image' = Canvas2D.height image.
Proof.
  intros H.
  destruct r as [[[frames]|] [program|] [[w h cw ch]|] t];
    try (rewrite run_unmounted in H by (cbn; auto); discriminate H).
  exists (mkCanvas w h cw ch).
  apply returns_classified in H. destruct H as (_ & Hw & Hh).
  repeat split; try assumption.
  - apply returns_classified in H. destruct H as (_ & Hw' & _). congruence.
  - apply returns_classified in H. destruct H as (_ & _ & Hh'). congruence.
Qed.

(** C2.  On every path that returns, the live canvas is at return what it
    was before the call (same width and height).  When the component is
    mounted (the paths that resize the canvas) exactly two frames were
    drawn: one at the target size, then one at the original size, which is
    the last thing rendered before the return. *)
Theorem restored_on_return P sf blur r res st' :
  getCanvasDataURL P sf blur r = (Return res, st') ->
  canvasRef (refs st') = canvasRef r
  /\ forall gl program canvas,
       glRef r = Some gl -> programRef r = Some program ->
       canvasRef r = Some canvas ->
       let tw := Qfloor (mul P (inject_Z (clientWidth canvas)) sf) in
       let th := Qfloor (mul P (inject_Z (clientHeight canvas)) sf) in
       glRef (refs st')
       = Some (mkGL (drawn gl
                     ++ [mkFrame (tw, th) (timeRef r) (tw, th);
                         mkFrame (width canvas, height canvas) (timeRef r)
                                 (width canvas, height canvas)])).
Proof.
  intros H.
  destruct r as [[[frames]|] [program|] [[w h cw ch]|] t];
    try (rewrite run_unmounted in H by (cbn; auto);
         inversion H; subst; split; [reflexivity | cbn; intros; discriminate]).
  apply returns_classified in H. destruct H as (Hr & _). rewrite Hr.
  split; [reflexivity|].
  cbn. intros gl program' canvas Hgl _ Hc. inversion Hgl; inversion Hc; subst.
  reflexivity.
Qed.

(** C5.  With [blurRadius = 0] the export returns the PNG of a canvas of
    the target size on which nothing but the flipped readback was put
    ([putImageData] at the origin, no filter); no padded canvas and no
    final canvas is created.  The image data are the bytes read back, row
    [i] of the image being row [targetHeight - 1 - i] of the readback, byte
    for byte; the bytes read back are those of the GPU when it delivers
    the size asked for. *)
Theorem unblurred_export P sf blur frames program w h cw ch t :
  let tw := Qfloor (mul P (inject_Z cw) sf) in
  let th := Qfloor (mul P (inject_Z ch) sf) in
  let hiRes := mkFrame (tw, th) t (tw, th) in
  let readback := gpu P (frames ++ [hiRes]) tw th in
  let pixels := filled (Uint8Array.make (Z.to_nat (tw * th * 4))) readback in
  (blur == 0)%Q ->
  getContext2d P TempCanvas = true ->
  (0 < tw)%Z -> (0 < th)%Z ->
  exists flipped,
    Flip.flipY (Z.to_nat tw) (Z.to_nat th) pixels = Some flipped
    /\ length flipped = Z.to_nat (tw * th * 4)
    /\ (forall i k, i < Z.to_nat th -> k < Z.to_nat tw * 4 ->
          nth (i * (Z.to_nat tw * 4) + k) flipped x00
          = nth ((Z.to_nat th - 1 - i) * (Z.to_nat tw * 4) + k) pixels x00)
    /\ (length readback = Z.to_nat (tw * th * 4) -> pixels = readback)
    /\ let capture :=
         Canvas2D.mk tw th true Canvas2D.FilterNone
           [Canvas2D.mkCall true Canvas2D.FilterNone
              (Canvas2D.PutImageData (Canvas2D.mkImageData flipped tw th) 0 0)] in
       getCanvasDataURL P sf blur
         (mkRefs (Some (mkGL frames)) (Some program) (Some (mkCanvas w h cw ch)) t)
       = (Return (Some (PNG capture)),
          mkState
            (mkRefs (Some (mkGL (frames ++ [hiRes; mkFrame (w, h) t (w, h)])))
                    (Some program) (Some (mkCanvas w h cw ch)) t)
            (Some capture) None None).
Proof.
  intros tw th hiRes readback pixels Hblur Hctx Hw Hh.
  destruct (flipY_total tw th readback) as (flipped & Ef & Lf); try lia.
  fold pixels in Ef.
  exists flipped. split; [exact Ef|]. split; [exact Lf|].
  assert (Lp : length pixels = Z.to_nat tw * Z.to_nat th * 4).
  { unfold pixels. rewrite filled_length, make_length. apply to_nat_area; lia. }
  split; [exact (proj2 (flipY_bytes _ _ _ _ Lp Ef))|].
  split.
  { intros L. unfold pixels. apply filled_exact. now rewrite make_length. }
  unfold pixels, readback in Ef.
  unfold getCanvasDataURL, getCanvasDataURL_body; run; fold tw th hiRes.
  rewrite (area_nonneg tw th) by lia; run.
  rewrite (flip_into_flipY tw th) by lia. rewrite Ef. run.
  rewrite Hctx. run.
  rewrite (imageData_ok tw th flipped) by assumption. run.
  assert (Hp : positive blur = false).
  { unfold positive. apply negb_false_iff, Qle_bool_iff. rewrite Hblur. apply Qle_refl. }
  rewrite Hp. run. rewrite <- app_assoc. reflexivity.
Qed.


(** C8.  In the blur path the padded canvas is painted by nine
    [drawImage] calls, all reading the capture, all with image smoothing
    disabled and no filter; the regions they copy are those of
    [Spec.clamp_to_edge]: the capture to [(pad, pad)], its outer columns
    and rows stretched over the four strips, its corner pixels stretched
    over the four [pad x pad] squares. *)
Theorem clamp_to_edge_assembly P sf blur frames program w h cw ch t :
  let tw := Qfloor (mul P (inject_Z cw) sf) in
  let th := Qfloor (mul P (inject_Z ch) sf) in
  let pad := Qceiling (mul P (mul P blur sf) 3) in
  let st' := snd (getCanvasDataURL P sf blur
                    (mkRefs (Some (mkGL frames)) (Some program)
                            (Some (mkCanvas w h cw ch)) t)) in
  (0 < blur)%Q ->
  getContext2d P TempCanvas = true ->
  getContext2d P ClampedCanvas = true ->
  (0 < tw)%Z -> (0 < th)%Z ->
  exists capture padded,
    tempCanvas st' = Some capture
    /\ Canvas2D.width capture = tw /\ Canvas2D.height capture = th
    /\ clampedCanvas st' = Some padded
    /\ Forall (fun call =>
                 Canvas2D.smoothing call = false
                 /\ Canvas2D.filtered call = Canvas2D.FilterNone
                 /\ Spec.image_of (Canvas2D.op call) = Some capture)
              (Canvas2D.painted padded)
    /\ map (fun call => Spec.copy_of (Canvas2D.op call)) (Canvas2D.painted padded)
       = map Some (Spec.clamp_to_edge tw th pad).
Proof.
  intros tw th pad st' Hblur Hctx Hcl Hw Hh. subst st'.
  destruct (flipY_total tw th
              (gpu P (frames ++ [mkFrame (tw, th) t (tw, th)]) tw th))
    as (flipped & Ef & Lf); try lia.
  assert (Hp : positive blur = true).
  { unfold positive. apply negb_true_iff. apply not_true_is_false.
    rewrite Qle_bool_iff. now apply Qlt_not_le. }
  unfold getCanvasDataURL, getCanvasDataURL_body; run; fold tw th pad.
  rewrite (area_nonneg tw th) by lia; run.
  rewrite (flip_into_flipY tw th) by lia. rewrite Ef. run.
  rewrite Hctx. run.
  rewrite (imageData_ok tw th flipped) by assumption. run.
  rewrite Hp. run.
  destruct (getContext2d P ClampedCanvas); [|discriminate Hcl]. run.
  destruct (getContext2d P FinalCanvas); run;
    do 2 eexists; (split; [reflexivity|]);
    cbn [Canvas2D.width Canvas2D.height Canvas2D.painted];
    (split; [reflexivity|]); (split; [reflexivity|]); (split; [reflexivity|]);
    (split; [repeat constructor | reflexivity]).
Qed.

(** The nine destination regions fill the padded buffer. *)
Lemma clamp_regions_cover tw th pad px py :
  (0 <= pad)%Z -> (0 <= tw)%Z -> (0 <= th)%Z ->
  ((0 <= px < tw + 2 * pad)%Z /\ (0 <= py < th + 2 * pad)%Z)
  <-> Exists (fun c => Spec.inside px py (Spec.to c)) (Spec.clamp_to_edge tw th pad).
Proof.
  intros Hp Hw Hh. unfold Spec.clamp_to_edge.
  rewrite !Exists_cons, Exists_nil.
  cbv [Spec.inside Spec.to Spec.x Spec.y Spec.w Spec.h Spec.centre
       Spec.leftStrip Spec.rightStrip Spec.topStrip Spec.bottomStrip
       Spec.topLeftSquare Spec.topRightSquare Spec.bottomLeftSquare
       Spec.bottomRightSquare].
  split; [|lia]. intros.
  assert (px < pad \/ pad <= px < pad + tw \/ tw + pad <= px)%Z as [|[|]] by lia;
    assert (py < pad \/ pad <= py < pad + th \/ th + pad <= py)%Z as [|[|]] by lia;
    repeat first [ solve [left; lia] | right ].
Qed.

(** C3, as the code has it.  When the temporary canvas yields no 2D
    context the export restores the live canvas, re-renders and returns
    [null].  When the padded or the final canvas yields none (blur
    requested), it returns the PNG of the unblurred capture, the live
    canvas having been restored. *)
Theorem context_failure P sf blur frames program w h cw ch t :
  let tw := Qfloor (mul P (inject_Z cw) sf) in
  let th := Qfloor (mul P (inject_Z ch) sf) in
  let hiRes := mkFrame (tw, th) t (tw, th) in
  let pixels := filled (Uint8Array.make (Z.to_nat (tw * th * 4)))
                       (gpu P (frames ++ [hiRes]) tw th) in
  let r := mkRefs (Some (mkGL frames)) (Some program) (Some (mkCanvas w h cw ch)) t in
  let restored :=
    mkRefs (Some (mkGL (frames ++ [hiRes; mkFrame (w, h) t (w, h)])))
           (Some program) (Some (mkCanvas w h cw ch)) t in
  (getContext2d P TempCanvas = false ->
   (0 <= tw)%Z -> (0 <= th)%Z ->
   getCanvasDataURL P sf blur r
   = (Return None,
      mkState restored (Some (Canvas2D.mk tw th true Canvas2D.FilterNone []))
              None None))
  /\ (getContext2d P TempCanvas = true ->
      (0 < tw)%Z -> (0 < th)%Z ->
      (0 < blur)%Q ->
      getContext2d P ClampedCanvas = false \/ getContext2d P FinalCanvas = false ->
      exists flipped,
        Flip.flipY (Z.to_nat tw) (Z.to_nat th) pixels = Some flipped
        /\ fst (getCanvasDataURL P sf blur r)
           = Return (Some (PNG (Canvas2D.mk tw th true Canvas2D.FilterNone
                                  [Canvas2D.mkCall true Canvas2D.FilterNone
                                     (Canvas2D.PutImageData
                                        (Canvas2D.mkImageData flipped tw th) 0 0)])))
        /\ refs (snd (getCanvasDataURL P sf blur r)) = restored).
Proof.
  intros tw th hiRes pixels r restored. subst r restored. split.
  - intros Hctx Hw Hh.
    destruct (flipY_total tw th (gpu P (frames ++ [hiRes]) tw th))
      as (flipped & Ef & Lf); try lia.
    unfold getCanvasDataURL, getCanvasDataURL_body; run; fold tw th hiRes.
    rewrite (area_nonneg tw th) by lia; run.
    rewrite (flip_into_flipY tw th) by lia. rewrite Ef. run.
    rewrite Hctx. run. rewrite <- app_assoc. reflexivity.
  - intros Hctx Hw Hh Hblur Hnull.
    destruct (flipY_total tw th (gpu P (frames ++ [hiRes]) tw th))
      as (flipped & Ef & Lf); try lia.
    exists flipped. split; [exact Ef|].
    assert (Hp : positive blur = true).
    { unfold positive. apply negb_true_iff. apply not_true_is_false.
      rewrite Qle_bool_iff. now apply Qlt_not_le. }
    unfold getCanvasDataURL, getCanvasDataURL_body; run; fold tw th hiRes.
    rewrite (area_nonneg tw th) by lia; run.
    rewrite (flip_into_flipY tw th) by lia. rewrite Ef. run.
    rewrite Hctx. run.
    rewrite (imageData_ok tw th flipped) by assumption. run.
    rewrite Hp. run.
    destruct (getContext2d P ClampedCanvas) eqn:Ec; run.
    + destruct Hnull as [Hnull|Hnull]; [discriminate Hnull|].
      rewrite Hnull. run. rewrite <- app_assoc. split; reflexivity.
    + rewrite <- app_assoc. split; reflexivity.
Qed.

(** C3 as stated fails: with no 2D context for the padded canvas the
    export does not return [null]. *)
Lemma null_clamped_context_still_exports :
  getContext2d (Fixtures.platform Fixtures.no_clamped_context) ClampedCanvas = false
  /\ fst (getCanvasDataURL (Fixtures.platform Fixtures.no_clamped_context)
            2 40 Fixtures.mounted) <> Return None.
Proof.
  split; [reflexivity|]. vm_compute. discriminate.
Qed.
End ExportFacts.

(** *** The export at work

    The component of [Fixtures], exported at scale 2. *)

Lemma uninitialised_returns_null_witness :
  Shader.getCanvasDataURL (Fixtures.platform Fixtures.all_contexts) 2 0
    Fixtures.unmounted
  = (Shader.Return None, Shader.mkState Fixtures.unmounted None None None).
Proof.
  exact (proj1 (uninitialised_returns_null
                  (Fixtures.platform Fixtures.all_contexts) 2 0
                  Fixtures.unmounted (or_introl eq_refl))).
Defined.

Lemma output_dimensions_witness :
  exists image st',
    Shader.getCanvasDataURL (Fixtures.platform Fixtures.all_contexts) 2 (1 # 2)
      Fixtures.mounted
    = (Shader.Return (Some (Shader.PNG image)), st')
    /\ Canvas2D.width image = 6%Z /\ Canvas2D.height image = 4%Z.
Proof.
  match eval vm_compute in
        (Shader.getCanvasDataURL (Fixtures.platform Fixtures.all_contexts)
           2 (1 # 2) Fixtures.mounted) with
  | (Shader.Return (Some (Shader.PNG ?image)), ?st') =>
      exists image, st';
      assert (H : Shader.getCanvasDataURL
                    (Fixtures.platform Fixtures.all_contexts) 2 (1 # 2)
                    Fixtures.mounted
                  = (Shader.Return (Some (Shader.PNG image)), st'))
        by (vm_compute; reflexivity)
  end.
  split; [exact H|].
  destruct (output_dimensions _ _ _ _ _ _ H) as (canvas & Hc & Hw & Hh & _).
  cbn in Hc. injection Hc as <-. split; [exact Hw | exact Hh].
Defined.

Lemma restored_on_return_witness :
  exists res st',
    Shader.getCanvasDataURL (Fixtures.platform Fixtures.no_temp_context) 2 40
      Fixtures.mounted
    = (Shader.Return res, st')
    /\ Shader.canvasRef (Shader.refs st') = Some (Shader.mkCanvas 300 400 3 2)
    /\ Shader.glRef (Shader.refs st')
       = Some (Shader.mkGL [Shader.mkFrame (6, 4)%Z (1 # 2) (6, 4)%Z;
                            Shader.mkFrame (300, 400)%Z (1 # 2) (300, 400)%Z]).
Proof.
  match eval vm_compute in
        (Shader.getCanvasDataURL (Fixtures.platform Fixtures.no_temp_context)
           2 40 Fixtures.mounted) with
  | (Shader.Return ?res, ?st') =>
      exists res, st';
      assert (H : Shader.getCanvasDataURL
                    (Fixtures.platform Fixtures.no_temp_context) 2 40
                    Fixtures.mounted
                  = (Shader.Return res, st'))
        by (vm_compute; reflexivity)
  end.
  split; [exact H|].
  destruct (restored_on_return _ _ _ _ _ _ H) as (Hc & Hf).
  split; [exact Hc|].
  exact (Hf _ _ _ eq_refl eq_refl eq_refl).
Defined.

Lemma context_failure_witness :
  fst (Shader.getCanvasDataURL (Fixtures.platform Fixtures.no_temp_context) 2 40
         Fixtures.mounted)
  = Shader.Return None
  /\ exists url,
       fst (Shader.getCanvasDataURL (Fixtures.platform Fixtures.no_final_context)
              2 40 Fixtures.mounted)
       = Shader.Return (Some url).
Proof.
  split.
  - exact (f_equal fst
             (proj1 (context_failure (Fixtures.platform Fixtures.no_temp_context)
                       2 40 [] Shader.Program 300 400 3 2 (1 # 2))
                eq_refl
                (proj1 (Z.leb_le 0 6) eq_refl) (proj1 (Z.leb_le 0 4) eq_refl))).
  - destruct (proj2 (context_failure (Fixtures.platform Fixtures.no_final_context)
                       2 40 [] Shader.Program 300 400 3 2 (1 # 2))
                eq_refl eq_refl eq_refl eq_refl (or_intror eq_refl))
      as (flipped & _ & Hret & _).
    eexists. exact Hret.
Defined.

Lemma unblurred_export_witness :
  exists flipped,
    fst (Shader.getCanvasDataURL (Fixtures.platform Fixtures.all_contexts) 2 0
           Fixtures.mounted)
    = Shader.Return
        (Some (Shader.PNG
                 (Canvas2D.mk 6 4 true Canvas2D.FilterNone
                    [Canvas2D.mkCall true Canvas2D.FilterNone
                       (Canvas2D.PutImageData
                          (Canvas2D.mkImageData flipped 6 4) 0 0)])))
    /\ length flipped = 96
    /\ forall i k, i < 4 -> k < 24 ->
         nth (i * 24 + k) flipped x00
         = nth ((4 - 1 - i) * 24 + k) (Fixtures.ramp 96) x00.
Proof.
  destruct (unblurred_export (Fixtures.platform Fixtures.all_contexts) 2 0
              [] Shader.Program 300 400 3 2 (1 # 2)
              (Qeq_refl 0) eq_refl eq_refl eq_refl)
    as (flipped & _ & Hl & Hb & _ & Hrun).
  exists flipped. split; [exact (f_equal fst Hrun)|].
  split; [exact Hl | exact Hb].
Defined.



Lemma clamp_to_edge_assembly_witness :
  exists padded,
    Shader.clampedCanvas
      (snd (Shader.getCanvasDataURL (Fixtures.platform Fixtures.all_contexts)
              2 40 Fixtures.mounted))
    = Some padded
    /\ map (fun call => Spec.copy_of (Canvas2D.op call)) (Canvas2D.painted padded)
       = map Some (Spec.clamp_to_edge 6 4 240).
Proof.
  destruct (clamp_to_edge_assembly (Fixtures.platform Fixtures.all_contexts) 2 40
              [] Shader.Program 300 400 3 2 (1 # 2)
              eq_refl eq_refl eq_refl eq_refl eq_refl)
    as (capture & padded & _ & _ & _ & Hp & _ & Hcopies).
  exists padded. split; [exact Hp | exact Hcopies].
Defined.

(** The padding over the blur radii and scales of the specification's test:
    the padded canvas of a 1 x 1 layout is [scale + 2 * ceil(blur * scale * 3)]
    wide, and there is none when the blur is 0. *)
Example padding_table :
  map (fun blur => map (Fixtures.padded_width blur) [1; 2; 4]%Q) [0; 1; 40; 100]%Q
  = [ [None; None; None];
      [Some (1 + 2 * 3); Some (2 + 2 * 6); Some (4 + 2 * 12)];
      [Some (1 + 2 * 120); Some (2 + 2 * 240); Some (4 + 2 * 480)];
      [Some (1 + 2 * 300); Some (2 + 2 * 600); Some (4 + 2 * 1200)] ]%Z.
Proof. vm_compute. reflexivity. Qed.

Section GeneratorFacts.
Import GrsAi.
Local Open Scope string_scope.

Lemma truthy_string s : truthy (JString s) = true -> s <> "".
Proof.
  cbn. intros H ->. discriminate H.
Qed.

(** What passes the basic validation. *)
Lemma accepted_shape parsed :
  rejected_shape parsed = false ->
  truthy (prop parsed "title") = true
  /\ truthy (prop parsed "subtitle") = true
  /\ exists colors, prop parsed "colors" = JArray colors /\ length colors = 5.
Proof.
  unfold rejected_shape. rewrite !orb_false_iff, !negb_false_iff.
  intros ((((_ & Ht) & Hs) & Ha) & Hl). repeat split; try assumption.
  destruct (prop parsed "colors") as [| | | | |colors|]; try discriminate Ha.
  exists colors. split; [reflexivity|]. now apply Nat.eqb_eq in Hl.
Qed.

Lemma attempt_accepts W mood lang parsed :
  attempt W mood lang = inr parsed -> rejected_shape parsed = false.
Proof.
  unfold attempt.
  destruct (key_present (API_KEY W)); cbn [negb]; [|discriminate].
  destruct (fetch W mood lang) as [res|]; [|discriminate].
  destruct (ok res); cbn [negb]; [|discriminate].
  destruct (json res) as [j|]; [|discriminate].
  destruct (truthy (content_of j)); cbn [negb]; [|discriminate].
  destruct (parse_response W (content_of j)) as [e|p]; [discriminate|].
  destruct (rejected_shape p) eqn:E; [discriminate|].
  intros H. inversion H. subst. exact E.
Qed.

Lemma caught W mood lang e :
  attempt W mood lang = inl e ->
  generateCreativeContent W mood lang = Resolved (fallback lang).
Proof.
  unfold generateCreativeContent. now intros ->.
Qed.

Lemma fallback_shape lang : rejected_shape (fallback lang) = false.
Proof. destruct lang; reflexivity. Qed.

(** C10.  [generateCreativeContent] never rejects: whatever the key, the
    request, the reply and the parser do, the promise resolves.  The
    resolved value has a [colors] array of exactly 5 entries and a truthy
    [title] and [subtitle] (so not the empty string).  A missing key, a
    rejected or non-OK response, empty content, content that parses
    neither directly nor through the pattern, and a parsed value without
    title, subtitle or exactly 5 colors all resolve with the fallback. *)
Theorem generateCreativeContent_resolves W mood lang :
  exists value,
    generateCreativeContent W mood lang = Resolved value
    /\ (exists colors, prop value "colors" = JArray colors /\ length colors = 5)
    /\ truthy (prop value "title") = true
    /\ truthy (prop value "subtitle") = true
    /\ (forall s, prop value "title" = JString s -> s <> "")
    /\ (forall s, prop value "subtitle" = JString s -> s <> "")
    /\ (key_present (API_KEY W) = false -> value = fallback lang)
    /\ (fetch W mood lang = None -> value = fallback lang)
    /\ (forall res, fetch W mood lang = Some res ->
          (ok res = false -> value = fallback lang)
          /\ forall j, json res = Some j ->
               (truthy (content_of j) = false -> value = fallback lang)
               /\ (JSON_parse W (content_of j) = None ->
                   (forall s m0, content_of j = JString s ->
                                 regex_match s = Some m0 ->
                                 JSON_parse W (JString m0) = None) ->
                   value = fallback lang)
               /\ forall parsed,
                    parse_response W (content_of j) = inr parsed ->
                    truthy (prop parsed "title") = false
                    \/ truthy (prop parsed "subtitle") = false
                    \/ (forall colors, prop parsed "colors" = JArray colors ->
                                       length colors <> 5) ->
                    value = fallback lang).
Proof.
  assert (shape : forall v, rejected_shape v = false ->
            (exists colors, prop v "colors" = JArray colors /\ length colors = 5)
            /\ truthy (prop v "title") = true
            /\ truthy (prop v "subtitle") = true
            /\ (forall s, prop v "title" = JString s -> s <> "")
            /\ (forall s, prop v "subtitle" = JString s -> s <> "")).
  { intros v Hv. destruct (accepted_shape v Hv) as (Ht & Hs & Hc).
    repeat split; try assumption.
    - intros s E. rewrite E in Ht. now apply truthy_string.
    - intros s E. rewrite E in Hs. now apply truthy_string. }
  destruct (attempt W mood lang) as [e|parsed] eqn:E.
  - exists (fallback lang). split; [exact (caught W mood lang e E)|].
    destruct (shape (fallback lang) (fallback_shape lang)) as (H1 & H2 & H3 & H4 & H5).
    repeat split; auto.
  - exists parsed. split; [unfold generateCreativeContent; now rewrite E|].
    pose proof (attempt_accepts W mood lang parsed E) as Hok.
    destruct (shape parsed Hok) as (H1 & H2 & H3 & H4 & H5).
    split; [exact H1|]. split; [exact H2|]. split; [exact H3|].
    split; [exact H4|]. split; [exact H5|].
    unfold attempt in E.
    destruct (key_present (API_KEY W)); cbn [negb] in E; [|discriminate].
    split; [discriminate|].
    destruct (fetch W mood lang) as [res|]; [|discriminate].
    split; [discriminate|].
    intros res' Hres. inversion Hres; subst res'; clear Hres.
    destruct (ok res); cbn [negb] in E; [|discriminate].
    split; [discriminate|].
    destruct (json res) as [j|]; [|discriminate].
    intros j' Hj. inversion Hj; subst j'; clear Hj.
    destruct (truthy (content_of j)); cbn [negb] in E; [|discriminate].
    split; [discriminate|].
    destruct (parse_response W (content_of j)) as [e|p] eqn:Ep; [discriminate|].
    destruct (rejected_shape p) eqn:Er; [discriminate|].
    inversion E; subst p; clear E. split.
    + intros Hnone Hre. exfalso. unfold parse_response in Ep.
      rewrite Hnone in Ep.
      destruct (content_of j) as [| | | |s| |]; try discriminate Ep.
      destruct (regex_match s) as [m0|] eqn:Em; [|discriminate Ep].
      rewrite (Hre s m0 eq_refl Em) in Ep. discriminate Ep.
    + intros parsed' Hp. inversion Hp; subst parsed'; clear Hp.
      intros [Hbad|[Hbad|Hbad]]; exfalso.
      * rewrite H2 in Hbad. discriminate.
      * rewrite H3 in Hbad. discriminate.
      * destruct H1 as (colors & Hc & Hl). exact (Hbad colors Hc Hl).
Qed.

Example generateCreativeContent_success :
  generateCreativeContent Fixtures.world "calm harbour" en
  = Resolved Fixtures.poster.
Proof. reflexivity. Qed.

(** The fallback pattern finds no object in a fenced reply: the class
    between the braces admits only a backslash, [s] and [S]. *)
Example regex_misses_fenced_json :
  regex_match "```json {'title': 1} ```" = None
  /\ regex_match "x {sS\} y" = Some "{sS\}".
Proof. split; reflexivity. Qed.
End GeneratorFacts.

Section ColourFacts.
Import JSString Number Colour.

Lemma land_255 x : Z.land x 255 = (x mod 256)%Z.
Proof.
  change 255%Z with (Z.ones 8). rewrite Z.land_ones by lia. reflexivity.
Qed.



Lemma digit_facts u d :
  d < 16 ->
  white1 (digit u d) = false /\ lead (digit u d) = false
  /\ Ascii.eqb (digit u d) "-" = false /\ Ascii.eqb (digit u d) "+" = false
  /\ Ascii.eqb (digit u d) "#" = false
  /\ Ascii.eqb (digit u d) "x" = false /\ Ascii.eqb (digit u d) "X" = false
  /\ hex_digit (digit u d) = Some (Z.of_nat d).
Proof.
  intros H. destruct u;
    do 16 (destruct d as [|d]; [repeat split|]); lia.
Qed.

(** [parseInt] on a string that starts with two digits: nothing is skipped,
    and the value is that of the digits, as long as it is below 2^53. *)
Lemma parseInt16_digits u1 d1 u2 d2 rest :
  d1 < 16 -> d2 < 16 ->
  let ds := hex_prefix (String (digit u1 d1) (String (digit u2 d2) rest)) in
  (hex_value ds < 9007199254740992)%Z ->
  parseInt16 (String (digit u1 d1) (String (digit u2 d2) rest))
  = Finite (hex_value ds).
Proof.
  intros H1 H2 ds Hsmall. subst ds.
  destruct (digit_facts u1 d1 H1) as (W & L & Hm & Hp & _ & _ & _ & Hh).
  destruct (digit_facts u2 d2 H2) as (_ & _ & _ & _ & _ & Hx & HX & Hh2).
  unfold parseInt16, trimStart. cbn [strip]. rewrite W, L, Hm, Hp, Hx, HX.
  rewrite andb_false_r.
  revert Hsmall. cbn [hex_prefix]. rewrite Hh, Hh2. intros Hsmall.
  unfold nearest_double.
  apply Z.ltb_lt in Hsmall. rewrite Hsmall. reflexivity.
Qed.

Lemma toInt32_small z :
  (0 <= z < 2147483648)%Z -> toInt32 (Finite z) = z.
Proof.
  intros H. unfold toInt32. rewrite Z.mod_small by lia. lia.
Qed.

Lemma unpack r g b :
  (0 <= r < 256)%Z -> (0 <= g < 256)%Z -> (0 <= b < 256)%Z ->
  let z := (r * 65536 + g * 256 + b)%Z in
  Z.land (Z.shiftr z 16) 255 = r /\ Z.land (Z.shiftr z 8) 255 = g
  /\ Z.land z 255 = b.
Proof.
  intros Hr Hg Hb z. subst z. rewrite !land_255, !Z.shiftr_div_pow2 by lia.
  change (2 ^ 16)%Z with 65536%Z. change (2 ^ 8)%Z with 256%Z.
  repeat split; Z.div_mod_to_equations; lia.
Qed.

(** X2.  A colour written [#RRGGBB], in either case, is read as the
    bytes [RR], [GG] and [BB] over 255. *)
Theorem hexToRgb_six_digits div u1 d1 u2 d2 u3 d3 u4 d4 u5 d5 u6 d6 :
  d1 < 16 -> d2 < 16 -> d3 < 16 -> d4 < 16 -> d5 < 16 -> d6 < 16 ->
  hexToRgb div
    (String "#" (String (digit u1 d1) (String (digit u2 d2)
       (String (digit u3 d3) (String (digit u4 d4)
          (String (digit u5 d5) (String (digit u6 d6) EmptyString)))))))
  = (div (inject_Z (Z.of_nat (16 * d1 + d2))) 255%Q,
     div (inject_Z (Z.of_nat (16 * d3 + d4))) 255%Q,
     div (inject_Z (Z.of_nat (16 * d5 + d6))) 255%Q).
Proof.
  intros H1 H2 H3 H4 H5 H6.
  unfold hexToRgb, channels. cbn [remove_first_hash Ascii.eqb Bool.eqb].
  pose proof (digit_facts u3 d3 H3) as (_ & _ & _ & _ & _ & _ & _ & E3).
  pose proof (digit_facts u4 d4 H4) as (_ & _ & _ & _ & _ & _ & _ & E4).
  pose proof (digit_facts u5 d5 H5) as (_ & _ & _ & _ & _ & _ & _ & E5).
  pose proof (digit_facts u6 d6 H6) as (_ & _ & _ & _ & _ & _ & _ & E6).
  pose proof (digit_facts u1 d1 H1) as (_ & _ & _ & _ & _ & _ & _ & E1).
  pose proof (digit_facts u2 d2 H2) as (_ & _ & _ & _ & _ & _ & _ & E2).
  assert (V : hex_value (hex_prefix
                (String (digit u1 d1) (String (digit u2 d2)
                   (String (digit u3 d3) (String (digit u4 d4)
                      (String (digit u5 d5) (String (digit u6 d6) EmptyString)))))))
              = (Z.of_nat (16 * d1 + d2) * 65536 + Z.of_nat (16 * d3 + d4) * 256
                 + Z.of_nat (16 * d5 + d6))%Z).
  { cbn [hex_prefix]. rewrite E1, E2, E3, E4, E5, E6. cbn [hex_value fold_left]. lia. }
  rewrite parseInt16_digits by (try assumption; rewrite V; lia).
  rewrite V, toInt32_small by lia.
  destruct (unpack (Z.of_nat (16 * d1 + d2)) (Z.of_nat (16 * d3 + d4))
              (Z.of_nat (16 * d5 + d6))) as (Er & Eg & Eb); try lia.
  cbv zeta in Er, Eg, Eb. rewrite Er, Eg, Eb. reflexivity.
Qed.

(** X3.  A three-digit colour [#RGB] is not expanded: red is 0, green is
    the first digit and blue the byte of the last two. *)
Theorem hexToRgb_three_digits div u1 d1 u2 d2 u3 d3 :
  d1 < 16 -> d2 < 16 -> d3 < 16 ->
  hexToRgb div
    (String "#" (String (digit u1 d1) (String (digit u2 d2)
       (String (digit u3 d3) EmptyString))))
  = (div (inject_Z 0) 255%Q,
     div (inject_Z (Z.of_nat d1)) 255%Q,
     div (inject_Z (Z.of_nat (16 * d2 + d3))) 255%Q).
Proof.
  intros H1 H2 H3.
  unfold hexToRgb, channels. cbn [remove_first_hash Ascii.eqb Bool.eqb].
  pose proof (digit_facts u3 d3 H3) as (_ & _ & _ & _ & _ & _ & _ & E3).
  pose proof (digit_facts u1 d1 H1) as (_ & _ & _ & _ & _ & _ & _ & E1).
  pose proof (digit_facts u2 d2 H2) as (_ & _ & _ & _ & _ & _ & _ & E2).
  assert (V : hex_value (hex_prefix
                (String (digit u1 d1) (String (digit u2 d2)
                   (String (digit u3 d3) EmptyString))))
              = (0 * 65536 + Z.of_nat d1 * 256 + Z.of_nat (16 * d2 + d3))%Z).
  { cbn [hex_prefix]. rewrite E1, E2, E3. cbn [hex_value fold_left]. lia. }
  rewrite parseInt16_digits by (try assumption; rewrite V; lia).
  rewrite V, toInt32_small by lia.
  destruct (unpack 0 (Z.of_nat d1) (Z.of_nat (16 * d2 + d3)))
    as (Er & Eg & Eb); try lia.
  cbv zeta in Er, Eg, Eb. rewrite Er, Eg, Eb. reflexivity.
Qed.
End ColourFacts.

Section LiveFacts.
Import Shader Live.

(** One run of [animate] on a mounted component. *)
Lemma animate_step P W frames program w h cw ch t rq sp :
  let dpr := if Qeq_bool (devicePixelRatio W) 0 then 1%Q else devicePixelRatio W in
  let dw := Qfloor (mul P (inject_Z cw) dpr) in
  let dh := Qfloor (mul P (inject_Z ch) dpr) in
  let t' := add W t (mul P (1 # 100) sp) in
  animate P W
    (mkLoop (mkRefs (Some (mkGL frames)) (Some program)
                    (Some (mkCanvas w h cw ch)) t) rq sp)
  = mkLoop (mkRefs (Some (mkGL (frames ++ [mkFrame (dw, dh) t' (dw, dh)])))
                   (Some program) (Some (mkCanvas dw dh cw ch)) t')
           (requestAnimationFrame W) sp.
Proof.
  intros dpr dw dh t'.
  unfold animate, animate_body, setTime. cbn [component speed]. run.
  fold dpr. fold dw dh t'.
  destruct (negb (w =? dw)%Z || negb (h =? dh)%Z) eqn:E; run.
  - reflexivity.
  - apply orb_false_iff in E. destruct E as (Ew & Eh).
    apply negb_false_iff, Z.eqb_eq in Ew. apply negb_false_iff, Z.eqb_eq in Eh.
    subst w h. reflexivity.
Qed.

(** X4.  On a mounted component one run of [animate] leaves the canvas at
    the display size, [floor(client * dpr)] on each side with [dpr] the
    device pixel ratio or 1 when that is 0, advances the time by
    [0.01 * speed], draws exactly one frame at that size and time, and
    stores the handle of the next request. *)
Theorem animate_mounted P W frames program w h cw ch t rq sp :
  let dpr := if Qeq_bool (devicePixelRatio W) 0 then 1%Q else devicePixelRatio W in
  let dw := Qfloor (mul P (inject_Z cw) dpr) in
  let dh := Qfloor (mul P (inject_Z ch) dpr) in
  let t' := add W t (mul P (1 # 100) sp) in
  animate P W
    (mkLoop (mkRefs (Some (mkGL frames)) (Some program)
                    (Some (mkCanvas w h cw ch)) t) rq sp)
  = mkLoop (mkRefs (Some (mkGL (frames ++ [mkFrame (dw, dh) t' (dw, dh)])))
                   (Some program) (Some (mkCanvas dw dh cw ch)) t')
           (requestAnimationFrame W) sp.
Proof. apply animate_step. Qed.

(** X5.  While the context, the program or the canvas is missing, [animate]
    draws nothing and changes no ref of the component; it only requests the
    next frame. *)
Theorem animate_unmounted P W r rq sp :
  glRef r = None \/ programRef r = None \/ canvasRef r = None ->
  animate P W (mkLoop r rq sp) = mkLoop r (requestAnimationFrame W) sp.
Proof.
  destruct r as [[gl|] [program|] [canvas|] t]; cbn [glRef programRef canvasRef];
    intros [H|[H|H]]; try discriminate H; reflexivity.
Qed.

(** Whatever the export does, the component stays mounted, laid out as it
    was and at the same time; only the backing size and the frames drawn
    can differ. *)
Lemma export_keeps_mounted P sf blur frames program w h cw ch t o st :
  getCanvasDataURL P sf blur
    (mkRefs (Some (mkGL frames)) (Some program) (Some (mkCanvas w h cw ch)) t)
  = (o, st) ->
  exists frames' w' h',
    refs st = mkRefs (Some (mkGL frames')) (Some program)
                     (Some (mkCanvas w' h' cw ch)) t.
Proof.
  intros H.
  unfold getCanvasDataURL, getCanvasDataURL_body in H. run_in H.
  repeat branch_in H; inversion H; subst; clear H; cbn [refs];
    do 3 eexists; reflexivity.
Qed.

(** X6.  After an export, whether it returned or threw, the next run of
    [animate] puts the canvas at the display size and draws its frame
    there, at the time before the export advanced once. *)
Theorem animate_after_export P W sf blur frames program w h cw ch t o st rq sp :
  getCanvasDataURL P sf blur
    (mkRefs (Some (mkGL frames)) (Some program) (Some (mkCanvas w h cw ch)) t)
  = (o, st) ->
  let dpr := if Qeq_bool (devicePixelRatio W) 0 then 1%Q else devicePixelRatio W in
  let dw := Qfloor (mul P (inject_Z cw) dpr) in
  let dh := Qfloor (mul P (inject_Z ch) dpr) in
  let t' := add W t (mul P (1 # 100) sp) in
  exists frames',
    component (animate P W (mkLoop (refs st) rq sp))
    = mkRefs (Some (mkGL (frames' ++ [mkFrame (dw, dh) t' (dw, dh)])))
             (Some program) (Some (mkCanvas dw dh cw ch)) t'.
Proof.
  intros H dpr dw dh t'.
  destruct (export_keeps_mounted _ _ _ _ _ _ _ _ _ _ _ _ H) as (frames' & w' & h' & E).
  rewrite E. exists frames'.
  rewrite animate_step. reflexivity.
Qed.

(** X7.  An export that returns right after a run of [animate] renders its
    high-resolution frame at the time of the frame on screen, and then
    renders that very frame again: same size, same time.  The canvas is
    back at the display size. *)
Theorem export_after_animate P W sf blur frames program w h cw ch t rq sp res st :
  let dpr := if Qeq_bool (devicePixelRatio W) 0 then 1%Q else devicePixelRatio W in
  let dw := Qfloor (mul P (inject_Z cw) dpr) in
  let dh := Qfloor (mul P (inject_Z ch) dpr) in
  let t' := add W t (mul P (1 # 100) sp) in
  let tw := Qfloor (mul P (inject_Z cw) sf) in
  let th := Qfloor (mul P (inject_Z ch) sf) in
  let live := mkFrame (dw, dh) t' (dw, dh) in
  getCanvasDataURL P sf blur
    (component
       (animate P W
          (mkLoop (mkRefs (Some (mkGL frames)) (Some program)
                          (Some (mkCanvas w h cw ch)) t) rq sp)))
  = (Return res, st) ->
  refs st
  = mkRefs (Some (mkGL (frames ++ [live; mkFrame (tw, th) t' (tw, th); live])))
           (Some program) (Some (mkCanvas dw dh cw ch)) t'.
Proof.
  intros dpr dw dh t' tw th live H.
  rewrite animate_step in H. cbn [component] in H.
  apply returns_classified in H. destruct H as (H & _).
  rewrite H. rewrite <- app_assoc. reflexivity.
Qed.

Lemma setup_failed G canvas :
  canvas = None \/ getContextWebgl G = false
  \/ (exists k, createShader G k = false \/ compileStatus G k = false)
  \/ createProgram G = false \/ linkStatus G = false ->
  glRef (setup G canvas) = None \/ programRef (setup G canvas) = None
  \/ canvasRef (setup G canvas) = None.
Proof.
  intros H. unfold setup, compileShader.
  destruct canvas as [c|]; [|cbn; auto].
  destruct (getContextWebgl G) eqn:Eg; cbn [negb]; [|cbn; auto].
  destruct (createShader G VertexShader) eqn:E1, (compileStatus G VertexShader) eqn:E2,
           (createShader G FragmentShader) eqn:E3, (compileStatus G FragmentShader) eqn:E4;
    cbn [negb orb]; try (cbn; now auto).
  destruct (createProgram G) eqn:E5; cbn [negb]; [|cbn; auto].
  destruct (linkStatus G) eqn:E6; cbn [negb]; [|cbn; auto].
  exfalso. destruct H as [H|[H|[(k & H)|[H|H]]]]; try discriminate H.
  destruct k, H as [H|H]; congruence.
Qed.

(** X8.  When the setup fails at any step (no canvas element, no WebGL
    context, a shader that cannot be created or compiled, a program that
    cannot be created or linked), every later export returns [null] and
    touches nothing, and [animate] draws nothing. *)
Theorem failed_setup_is_inert G canvas P W sf blur rq sp :
  canvas = None \/ getContextWebgl G = false
  \/ (exists k, createShader G k = false \/ compileStatus G k = false)
  \/ createProgram G = false \/ linkStatus G = false ->
  getCanvasDataURL P sf blur (setup G canvas)
  = (Return None, mkState (setup G canvas) None None None)
  /\ animate P W (mkLoop (setup G canvas) rq sp)
     = mkLoop (setup G canvas) (requestAnimationFrame W) sp.
Proof.
  intros H. apply setup_failed in H. split.
  - now apply run_unmounted.
  - destruct (setup G canvas) as [[gl|] [program|] [c|] t];
      cbn [glRef programRef canvasRef] in H;
      destruct H as [H|[H|H]]; try discriminate H; reflexivity.
Qed.

(** X9.  When every step of the setup succeeds the component is mounted, and
    the first run of [animate] sizes the canvas for the display and draws
    the first frame, at time [0 + 0.01 * speed]. *)
Theorem first_frame G P W w h cw ch rq sp :
  getContextWebgl G = true ->
  (forall k, createShader G k = true /\ compileStatus G k = true) ->
  createProgram G = true -> linkStatus G = true ->
  let dpr := if Qeq_bool (devicePixelRatio W) 0 then 1%Q else devicePixelRatio W in
  let dw := Qfloor (mul P (inject_Z cw) dpr) in
  let dh := Qfloor (mul P (inject_Z ch) dpr) in
  let t' := add W 0 (mul P (1 # 100) sp) in
  animate P W (mkLoop (setup G (Some (mkCanvas w h cw ch))) rq sp)
  = mkLoop (mkRefs (Some (mkGL [mkFrame (dw, dh) t' (dw, dh)]))
                   (Some Program) (Some (mkCanvas dw dh cw ch)) t')
           (requestAnimationFrame W) sp.
Proof.
  intros Hg Hs Hp Hl dpr dw dh t'.
  unfold setup, compileShader.
  destruct (Hs VertexShader) as (-> & ->). destruct (Hs FragmentShader) as (-> & ->).
  rewrite Hg, Hp, Hl. cbn [negb orb].
  rewrite animate_step. reflexivity.
Qed.
End LiveFacts.

Section ExportEdges.
Import Shader.

(** The export on a target size that is not positive on both sides. *)
Lemma run_collapsed P sf blur frames program w h cw ch t :
  let tw := Qfloor (mul P (inject_Z cw) sf) in
  let th := Qfloor (mul P (inject_Z ch) sf) in
  let run := getCanvasDataURL P sf blur
               (mkRefs (Some (mkGL frames)) (Some program)
                       (Some (mkCanvas w h cw ch)) t) in
  getContext2d P TempCanvas = true ->
  (tw <= 0)%Z \/ (th <= 0)%Z ->
  (exists e, fst run = Throw e)
  /\ refs (snd run)
     = mkRefs (Some (mkGL (frames ++ [mkFrame (tw, th) t (tw, th)])))
              (Some program) (Some (mkCanvas tw th cw ch)) t.
Proof.
  intros tw th run Hctx Hsize. subst run.
  unfold getCanvasDataURL, getCanvasDataURL_body; run; fold tw th.
  destruct (tw * th * 4 <? 0)%Z; run; [split; [eexists|]; reflexivity|].
  match goal with
  | |- context [Flip.flip_into ?a ?b ?c ?d] => destruct (Flip.flip_into a b c d)
  end; run; [|split; [eexists|]; reflexivity].
  destruct (getContext2d P TempCanvas); [|discriminate Hctx]. run.
  assert (E : ((0 <? tw)%Z && (0 <? th)%Z)%bool = false).
  { apply andb_false_iff. rewrite !Z.ltb_ge. exact Hsize. }
  rewrite E. cbn [andb]. run. split; [eexists|]; reflexivity.
Qed.

(** X10.  With a 2D context at hand and a target size that is 0 on one
    side (a layout collapsed to nothing), the export throws after it has
    resized the canvas and drawn the high-resolution frame: the canvas is
    left at the target size, not restored. *)
Theorem export_throws_unrestored P sf blur frames program w h cw ch t :
  let tw := Qfloor (mul P (inject_Z cw) sf) in
  let th := Qfloor (mul P (inject_Z ch) sf) in
  let run := getCanvasDataURL P sf blur
               (mkRefs (Some (mkGL frames)) (Some program)
                       (Some (mkCanvas w h cw ch)) t) in
  getContext2d P TempCanvas = true ->
  Canvas2D.holds tw = true -> Canvas2D.holds th = true ->
  tw = 0%Z \/ th = 0%Z ->
  (exists e, fst run = Throw e)
  /\ refs (snd run)
     = mkRefs (Some (mkGL (frames ++ [mkFrame (tw, th) t (tw, th)])))
              (Some program) (Some (mkCanvas tw th cw ch)) t.
Proof.
  intros tw th run Hctx _ _ Hzero. apply run_collapsed; [exact Hctx|].
  fold tw th. lia.
Qed.

(** X11.  With a blur and every context at hand, the export returns the PNG
    of the final canvas, on which the padded canvas was drawn once, under
    the filter [blur(blurRadius * scaleFactor px)], at [(-pad, -pad)]: each
    pixel of the result shows the pixel [pad] further right and down on the
    padded canvas, which lies in the copy of the capture. *)
Theorem blurred_export P sf blur frames program w h cw ch t :
  let tw := Qfloor (mul P (inject_Z cw) sf) in
  let th := Qfloor (mul P (inject_Z ch) sf) in
  let scaledBlur := mul P blur sf in
  let pad := Qceiling (mul P scaledBlur 3) in
  let run := getCanvasDataURL P sf blur
               (mkRefs (Some (mkGL frames)) (Some program)
                       (Some (mkCanvas w h cw ch)) t) in
  (0 < blur)%Q ->
  (forall s, getContext2d P s = true) ->
  (0 < tw)%Z -> (0 < th)%Z ->
  exists padded,
    clampedCanvas (snd run) = Some padded
    /\ fst run
       = Return (Some (PNG (Canvas2D.mk tw th true (Canvas2D.Blur scaledBlur)
                              [Canvas2D.mkCall true (Canvas2D.Blur scaledBlur)
                                 (Canvas2D.DrawImage3 padded (- pad) (- pad))])))
    /\ forall px py,
         (0 <= px < tw)%Z -> (0 <= py < th)%Z ->
         Spec.inside (px + pad) (py + pad) (Spec.centre tw th pad).
Proof.
  intros tw th scaledBlur pad run Hblur Hctx Hw Hh. subst run.
  destruct (flipY_total tw th
              (gpu P (frames ++ [mkFrame (tw, th) t (tw, th)]) tw th))
    as (flipped & Ef & Lf); try lia.
  assert (Hp : positive blur = true).
  { unfold positive. apply negb_true_iff. apply not_true_is_false.
    rewrite Qle_bool_iff. now apply Qlt_not_le. }
  pose proof (Hctx TempCanvas) as H1. pose proof (Hctx ClampedCanvas) as H2.
  pose proof (Hctx FinalCanvas) as H3.
  unfold getCanvasDataURL, getCanvasDataURL_body; run; fold tw th scaledBlur pad.
  rewrite (area_nonneg tw th) by lia; run.
  rewrite (flip_into_flipY tw th) by lia. rewrite Ef. run.
  destruct (getContext2d P TempCanvas); [|discriminate H1]. run.
  rewrite (imageData_ok tw th flipped) by assumption. run.
  rewrite Hp. run.
  destruct (getContext2d P ClampedCanvas); [|discriminate H2]. run.
  destruct (getContext2d P FinalCanvas); [|discriminate H3]. run.
  eexists. split; [reflexivity|]. split; [reflexivity|].
  intros px py Hx Hy. unfold Spec.inside, Spec.centre.
  cbn [Spec.x Spec.y Spec.w Spec.h]. lia.
Qed.
End ExportEdges.

Section DownloadFacts.
Import Shader App.

(** X12.  Without the artboard [handleDownload] does nothing.  With it, the
    handler always ends with the overlay removed, and either one download
    was started, of what [toPng] made, with no alert, or one alert was
    raised and nothing downloaded. *)
Theorem download_settles P page blur s :
  (captureRef page = false -> handleDownload P page blur s = s)
  /\ (captureRef page = true ->
      let s' := handleDownload P page blur s in
      snapshotUrl s' = None
      /\ ((alerts s' = alerts s
           /\ exists shown dataUrl,
                toPng page shown = Some dataUrl
                /\ downloads s' = downloads s ++ [mkDownload (now page) dataUrl])
          \/ (alerts s' = S (alerts s) /\ downloads s' = downloads s))).
Proof.
  unfold handleDownload. split; intros ->; cbn [negb]; [reflexivity|].
  unfold attempt.
  destruct (shaderRef page);
    [destruct (getCanvasDataURL P 2 blur (shader s)) as [[a|[url|]|e] st]|];
    cbn [snapshotUrl alerts downloads shader];
    destruct (fontsReady page); cbn [negb];
    repeat match goal with
           | |- context [toPng page ?x] => destruct (toPng page x) eqn:?
           end;
    cbn [snapshotUrl alerts downloads shader];
    (split; [reflexivity|]);
    first [ right; split; reflexivity
          | left; split; [reflexivity|]; do 2 eexists; split; [eassumption | reflexivity] ].
Qed.

(** X13.  When the export returns a data URL, that image, twice the layout
    on each side, is the overlay [toPng] captures: what [toPng] makes of the
    page under it is what is downloaded, once, without an alert, and the
    overlay is removed at the end. *)
Theorem download_uses_export P page blur s image st dataUrl :
  captureRef page = true -> shaderRef page = true -> fontsReady page = true ->
  getCanvasDataURL P 2 blur (shader s) = (Return (Some (PNG image)), st) ->
  toPng page (Some (PNG image)) = Some dataUrl ->
  let s' := handleDownload P page blur s in
  snapshotUrl s' = None
  /\ alerts s' = alerts s
  /\ downloads s' = downloads s ++ [mkDownload (now page) dataUrl]
  /\ exists canvas,
       canvasRef (shader s) = Some canvas
       /\ Canvas2D.width image = Qfloor (mul P (inject_Z (clientWidth canvas)) 2)
       /\ Canvas2D.height image = Qfloor (mul P (inject_Z (clientHeight canvas)) 2).
Proof.
  intros Hc Hs Hf Hrun Hpng s'.
  assert (E : s' = mkApp (refs st) None (alerts s)
                     (downloads s ++ [mkDownload (now page) dataUrl])).
  { subst s'. unfold handleDownload, attempt. rewrite Hc, Hs, Hrun.
    cbn [negb snapshotUrl]. rewrite Hf. cbn [negb]. rewrite Hpng. reflexivity. }
  rewrite E. cbn [snapshotUrl alerts downloads].
  split; [reflexivity|]. split; [reflexivity|]. split; [reflexivity|].
  destruct (shader s) as [[[frames]|] [program|] [[w h cw ch]|] t];
    try (rewrite run_unmounted in Hrun by (cbn; auto); discriminate Hrun).
  apply returns_classified in Hrun. destruct Hrun as (_ & Hw & Hh).
  eexists. split; [reflexivity|]. split; assumption.
Qed.

(** X14.  A click on a collapsed layout (target size not positive on both
    sides, 2D context at hand): the exception of the export is caught, one
    alert is raised, nothing is downloaded, the overlay is removed, and the
    live canvas is left at the target size. *)
Theorem download_collapsed P page blur frames program w h cw ch t snap n ds :
  let tw := Qfloor (mul P (inject_Z cw) 2) in
  let th := Qfloor (mul P (inject_Z ch) 2) in
  captureRef page = true -> shaderRef page = true ->
  getContext2d P TempCanvas = true ->
  (tw <= 0)%Z \/ (th <= 0)%Z ->
  handleDownload P page blur
    (mkApp (mkRefs (Some (mkGL frames)) (Some program)
                   (Some (mkCanvas w h cw ch)) t) snap n ds)
  = mkApp (mkRefs (Some (mkGL (frames ++ [mkFrame (tw, th) t (tw, th)])))
                  (Some program) (Some (mkCanvas tw th cw ch)) t)
          None (S n) ds.
Proof.
  intros tw th Hc Hs Hctx Hsize.
  destruct (run_collapsed P 2 blur frames program w h cw ch t Hctx Hsize)
    as ((e & He) & Hr).
  unfold handleDownload, attempt. rewrite Hc, Hs. cbn [negb shader].
  destruct (getCanvasDataURL P 2 blur
              (mkRefs (Some (mkGL frames)) (Some program)
                      (Some (mkCanvas w h cw ch)) t)) as [o st].
  cbn [fst snd] in He, Hr. subst o. rewrite Hr. reflexivity.
Qed.

(** X15.  When the setup of the shader failed, a click still downloads:
    the export returns [null], no overlay is shown, [toPng] captures the
    page as it is and its result is downloaded without an alert. *)
Theorem download_after_failed_setup G canvas P page blur dataUrl n ds :
  canvas = None \/ Live.getContextWebgl G = false
  \/ (exists k, Live.createShader G k = false \/ Live.compileStatus G k = false)
  \/ Live.createProgram G = false \/ Live.linkStatus G = false ->
  captureRef page = true -> fontsReady page = true ->
  toPng page None = Some dataUrl ->
  handleDownload P page blur (mkApp (Live.setup G canvas) None n ds)
  = mkApp (Live.setup G canvas) None n (ds ++ [mkDownload (now page) dataUrl]).
Proof.
  intros Hfail Hc Hf Hpng. apply setup_failed in Hfail.
  unfold handleDownload, attempt. rewrite Hc. cbn [negb shader].
  rewrite (run_unmounted P 2 blur _ Hfail).
  destruct (shaderRef page); cbn [snapshotUrl refs];
    rewrite Hf; cbn [negb]; rewrite Hpng; reflexivity.
Qed.
End DownloadFacts.

Section PanelFacts.
Import GrsAi Panel.

Lemma assign_length items index value :
  length (assign items index value) = Nat.max (length items) (S index).
Proof.
  revert items; induction index; intros [|x items]; cbn [assign length];
    try rewrite IHindex; cbn [length]; lia.
Qed.

Lemma assign_same items index value :
  nth index (assign items index value) JUndefined = value.
Proof.
  revert items; induction index; intros [|x items]; cbn [assign nth];
    try apply IHindex; reflexivity.
Qed.

Lemma assign_other items index value j :
  j <> index ->
  nth j (assign items index value) JUndefined = nth j items JUndefined.
Proof.
  revert items j; induction index; intros [|x items] [|j] H;
    cbn [assign nth]; try reflexivity; try lia.
  - destruct j; reflexivity.
  - rewrite IHindex by lia. destruct j; reflexivity.
  - apply IHindex. lia.
Qed.

(** X16.  [handleColorChange] on an array palette: the entry at the index
    reads the new colour, every other entry reads what it did, the palette
    keeps its length when the index is inside it and grows to [index + 1]
    when it is not, and no other field of the configuration changes. *)
Theorem handleColorChange_array index value c items :
  colors c = JArray items ->
  exists items',
    handleColorChange index value c
    = Fulfilled (mkConfig (title c) (subtitle c) (JArray items')
                   (speed c) (grain c) (blur c) (scale c) (fontFamily c))
    /\ nth index items' JUndefined = JString value
    /\ (forall j, j <> index -> nth j items' JUndefined = nth j items JUndefined)
    /\ (index < length items -> length items' = length items)
    /\ (length items <= index -> length items' = S index).
Proof.
  intros E. exists (assign items index (JString value)).
  unfold handleColorChange. rewrite E. cbn [spread].
  split; [reflexivity|]. split; [apply assign_same|].
  split; [intros j Hj; now apply assign_other|].
  rewrite assign_length. split; lia.
Qed.

Lemma strip_white1 backwards s :
  Forall (fun a => JSString.white1 a = true) (list_ascii_of_string s) ->
  JSString.strip backwards s = EmptyString.
Proof.
  induction s as [|a s IH]; cbn [list_ascii_of_string JSString.strip];
    [reflexivity|].
  intros H. inversion H; subst. rewrite H2. now apply IH.
Qed.

(** X17.  A mood made of spaces, tabs and line breaks only (or empty) asks
    for nothing: [handleGenerate] returns with the panel as it was. *)
Theorem handleGenerate_blank W lang p :
  Forall (fun a => JSString.white1 a = true) (list_ascii_of_string (mood p)) ->
  handleGenerate W lang p = Fulfilled p.
Proof.
  intros H. unfold handleGenerate, JSString.trim, JSString.trimStart.
  rewrite (strip_white1 false) by exact H.
  reflexivity.
Qed.

(** What a mood that is not blank leads to. *)
Lemma handleGenerate_done W lang p :
  truthy (JString (JSString.trim (mood p))) = true ->
  exists result,
    generateCreativeContent W (mood p) lang = Resolved result
    /\ rejected_shape result = false
    /\ handleGenerate W lang p
       = Fulfilled
           (mkPanel
              (mkConfig (prop result "title") (prop result "subtitle")
                 (prop result "colors")
                 (speed (config p)) (grain (config p)) (blur (config p))
                 (scale (config p)) (fontFamily (config p)))
              (mood p) false).
Proof.
  intros Hm. unfold handleGenerate. rewrite Hm. cbn [negb].
  unfold generateCreativeContent.
  destruct (attempt W (mood p) lang) as [e|parsed] eqn:E.
  - exists (fallback lang). split; [reflexivity|].
    split; [apply fallback_shape|]. destruct lang; reflexivity.
  - exists parsed. split; [reflexivity|].
    pose proof (attempt_accepts W (mood p) lang parsed E) as Hok.
    split; [exact Hok|].
    assert (N : nullish parsed = false).
    { unfold rejected_shape in Hok. rewrite !orb_false_iff in Hok.
      destruct Hok as ((((Ht & _) & _) & _) & _).
      apply negb_false_iff in Ht. destruct parsed; try reflexivity; discriminate Ht. }
    rewrite N. reflexivity.
Qed.

(** X18.  With a mood that is not blank, [handleGenerate] always completes:
    the spinner is off again, the palette is an array of exactly 5 entries,
    title and subtitle are truthy, and speed, grain, blur, scale, font and
    mood are untouched. *)
Theorem handleGenerate_completes W lang p :
  truthy (JString (JSString.trim (mood p))) = true ->
  exists p',
    handleGenerate W lang p = Fulfilled p'
    /\ isGenerating p' = false /\ mood p' = mood p
    /\ (exists items, colors (config p') = JArray items /\ length items = 5)
    /\ truthy (title (config p')) = true
    /\ truthy (subtitle (config p')) = true
    /\ speed (config p') = speed (config p)
    /\ grain (config p') = grain (config p)
    /\ blur (config p') = blur (config p)
    /\ scale (config p') = scale (config p)
    /\ fontFamily (config p') = fontFamily (config p).
Proof.
  intros Hm. destruct (handleGenerate_done W lang p Hm) as (result & _ & Hok & E).
  eexists. split; [exact E|].
  destruct (accepted_shape result Hok) as (Ht & Hs & Hc).
  cbn. repeat split; assumption.
Qed.

(** X19.  Through any sequence of moods typed, swatches changed and
    contents generated, the palette stays an array of exactly 5 entries. *)
Theorem palette_invariant W lang p :
  Reachable W lang p ->
  exists items, colors (config p) = JArray items /\ length items = 5.
Proof.
  induction 1 as [|p m _ IH|p c' _ IH He|p index value items c' _ IH Hc Hi Hh
                  |p p' _ IH Hg].
  - eexists. split; reflexivity.
  - exact IH.
  - cbn [config]. rewrite He. exact IH.
  - destruct IH as (items0 & E0 & L0). rewrite E0 in Hc. inversion Hc; subst items0.
    unfold handleColorChange in Hh. rewrite E0 in Hh. cbn [spread] in Hh.
    inversion Hh; subst c'. cbn [config colors].
    eexists. split; [reflexivity|]. rewrite assign_length. lia.
  - destruct (truthy (JString (JSString.trim (mood p)))) eqn:Hm.
    + destruct (handleGenerate_done W lang p Hm) as (result & _ & Hok & E).
      rewrite E in Hg. inversion Hg; subst p'. cbn [config colors].
      destruct (accepted_shape result Hok) as (_ & _ & Hc). exact Hc.
    + unfold handleGenerate in Hg. rewrite Hm in Hg. cbn [negb] in Hg.
      inversion Hg; subst p'. exact IH.
Qed.
End PanelFacts.

(** *** The added properties at work *)

Lemma hexToRgb_six_digits_witness :
  Colour.hexToRgb Qdiv "#Ff5733"
  = (Qdiv (inject_Z 255) 255, Qdiv (inject_Z 87) 255, Qdiv (inject_Z 51) 255).
Proof.
  exact (hexToRgb_six_digits Qdiv true 15 false 15 false 5 false 7 false 3 false 3
           (proj1 (Nat.ltb_lt 15 16) eq_refl) (proj1 (Nat.ltb_lt 15 16) eq_refl)
           (proj1 (Nat.ltb_lt 5 16) eq_refl) (proj1 (Nat.ltb_lt 7 16) eq_refl)
           (proj1 (Nat.ltb_lt 3 16) eq_refl) (proj1 (Nat.ltb_lt 3 16) eq_refl)).
Defined.

Lemma hexToRgb_three_digits_witness :
  Colour.hexToRgb Qdiv "#fff"
  = (Qdiv (inject_Z 0) 255, Qdiv (inject_Z 15) 255, Qdiv (inject_Z 255) 255).
Proof.
  exact (hexToRgb_three_digits Qdiv false 15 false 15 false 15
           (proj1 (Nat.ltb_lt 15 16) eq_refl) (proj1 (Nat.ltb_lt 15 16) eq_refl)
           (proj1 (Nat.ltb_lt 15 16) eq_refl)).
Defined.

Lemma animate_unmounted_witness :
  Live.animate (Fixtures.platform Fixtures.all_contexts) Samples.window
    (Live.mkLoop Fixtures.unmounted 0 (1 # 2))
  = Live.mkLoop Fixtures.unmounted 7 (1 # 2).
Proof.
  exact (animate_unmounted (Fixtures.platform Fixtures.all_contexts)
           Samples.window Fixtures.unmounted 0 (1 # 2) (or_introl eq_refl)).
Defined.

Lemma animate_after_export_witness :
  exists frames',
    Live.component
      (Live.animate (Fixtures.platform Fixtures.all_contexts) Samples.window
         (Live.mkLoop
            (Shader.refs
               (snd (Shader.getCanvasDataURL
                       (Fixtures.platform Fixtures.all_contexts) 2 0
                       Samples.collapsed)))
            0 (1 # 2)))
    = Shader.mkRefs
        (Some (Shader.mkGL (frames' ++ [Shader.mkFrame (0, 0)%Z ((1 # 2) + (1 # 100) * (1 # 2)) (0, 0)%Z])))
        (Some Shader.Program) (Some (Shader.mkCanvas 0 0 0 0))
        ((1 # 2) + (1 # 100) * (1 # 2)).
Proof.
  match eval vm_compute in
        (Shader.getCanvasDataURL (Fixtures.platform Fixtures.all_contexts) 2 0
           Samples.collapsed) with
  | (?o, ?st) =>
      assert (H : Shader.getCanvasDataURL
                    (Fixtures.platform Fixtures.all_contexts) 2 0
                    (Shader.mkRefs (Some (Shader.mkGL [])) (Some Shader.Program)
                       (Some (Shader.mkCanvas 300 400 0 0)) (1 # 2))
                  = (o, st))
        by (vm_compute; reflexivity)
  end.
  destruct (animate_after_export _ Samples.window _ _ _ _ _ _ _ _ _ _ _ 0 (1 # 2) H)
    as (frames' & E).
  exists frames'. exact E.
Defined.

Lemma export_after_animate_witness :
  exists res st,
    Shader.getCanvasDataURL (Fixtures.platform Fixtures.all_contexts) 2 0
      (Live.component
         (Live.animate (Fixtures.platform Fixtures.all_contexts) Samples.window
            Samples.loop))
    = (Shader.Return res, st)
    /\ Shader.canvasRef (Shader.refs st) = Some (Shader.mkCanvas 6 4 3 2).
Proof.
  match eval vm_compute in
        (Shader.getCanvasDataURL (Fixtures.platform Fixtures.all_contexts) 2 0
           (Live.component
              (Live.animate (Fixtures.platform Fixtures.all_contexts)
                 Samples.window Samples.loop))) with
  | (Shader.Return ?res, ?st) =>
      exists res, st;
      assert (H : Shader.getCanvasDataURL
                    (Fixtures.platform Fixtures.all_contexts) 2 0
                    (Live.component
                       (Live.animate (Fixtures.platform Fixtures.all_contexts)
                          Samples.window
                          (Live.mkLoop
                             (Shader.mkRefs (Some (Shader.mkGL []))
                                (Some Shader.Program)
                                (Some (Shader.mkCanvas 300 400 3 2)) (1 # 2))
                             0 (1 # 2))))
                  = (Shader.Return res, st))
        by (vm_compute; reflexivity)
  end.
  split; [exact H|].
  exact (f_equal Shader.canvasRef
           (export_after_animate _ _ _ _ _ _ _ _ _ _ _ _ _ _ _ H)).
Defined.

Lemma failed_setup_is_inert_witness :
  Shader.getCanvasDataURL (Fixtures.platform Fixtures.all_contexts) 2 40
    (Live.setup Samples.no_context (Some (Shader.mkCanvas 300 150 3 2)))
  = (Shader.Return None,
     Shader.mkState
       (Live.setup Samples.no_context (Some (Shader.mkCanvas 300 150 3 2)))
       None None None).
Proof.
  exact (proj1 (failed_setup_is_inert Samples.no_context
                  (Some (Shader.mkCanvas 300 150 3 2))
                  (Fixtures.platform Fixtures.all_contexts) Samples.window
                  2 40 0 (1 # 2) (or_intror (or_introl eq_refl)))).
Defined.

Lemma first_frame_witness :
  Live.component
    (Live.animate (Fixtures.platform Fixtures.all_contexts) Samples.window
       (Live.mkLoop (Live.setup Samples.working (Some (Shader.mkCanvas 300 150 3 2)))
          0 (1 # 2)))
  = Shader.mkRefs
      (Some (Shader.mkGL
               [Shader.mkFrame (6, 4)%Z (0 + (1 # 100) * (1 # 2)) (6, 4)%Z]))
      (Some Shader.Program) (Some (Shader.mkCanvas 6 4 3 2))
      (0 + (1 # 100) * (1 # 2)).
Proof.
  exact (f_equal Live.component
           (first_frame Samples.working (Fixtures.platform Fixtures.all_contexts)
              Samples.window 300 150 3 2 0 (1 # 2)
              eq_refl (fun k => conj eq_refl eq_refl) eq_refl eq_refl)).
Defined.

Lemma export_throws_unrestored_witness :
  Shader.canvasRef
    (Shader.refs
       (snd (Shader.getCanvasDataURL (Fixtures.platform Fixtures.all_contexts)
               2 0 Samples.collapsed)))
  = Some (Shader.mkCanvas 0 0 0 0).
Proof.
  exact (f_equal Shader.canvasRef
           (proj2 (export_throws_unrestored
                     (Fixtures.platform Fixtures.all_contexts) 2 0
                     [] Shader.Program 300 400 0 0 (1 # 2)
                     eq_refl eq_refl eq_refl (or_introl eq_refl)))).
Defined.

Lemma blurred_export_witness :
  exists padded,
    Shader.clampedCanvas
      (snd (Shader.getCanvasDataURL (Fixtures.platform Fixtures.all_contexts)
              2 40 Fixtures.mounted))
    = Some padded
    /\ fst (Shader.getCanvasDataURL (Fixtures.platform Fixtures.all_contexts)
              2 40 Fixtures.mounted)
       = Shader.Return
           (Some (Shader.PNG
                    (Canvas2D.mk 6 4 true (Canvas2D.Blur (40 * 2))
                       [Canvas2D.mkCall true (Canvas2D.Blur (40 * 2))
                          (Canvas2D.DrawImage3 padded (-240) (-240))]))).
Proof.
  destruct (blurred_export (Fixtures.platform Fixtures.all_contexts) 2 40
              [] Shader.Program 300 400 3 2 (1 # 2)
              eq_refl (fun s => eq_refl) eq_refl eq_refl)
    as (padded & Hp & Hr & _).
  exists padded. split; [exact Hp | exact Hr].
Defined.

Lemma download_uses_export_witness :
  App.downloads
    (App.handleDownload (Fixtures.platform Fixtures.all_contexts) Samples.page 40
       (Samples.app Fixtures.mounted))
  = [App.mkDownload 1700000000 "data:image/png;base64,AAAA"].
Proof.
  match eval vm_compute in
        (Shader.getCanvasDataURL (Fixtures.platform Fixtures.all_contexts) 2 40
           Fixtures.mounted) with
  | (Shader.Return (Some (Shader.PNG ?image)), ?st) =>
      assert (H : Shader.getCanvasDataURL
                    (Fixtures.platform Fixtures.all_contexts) 2 40
                    (App.shader (Samples.app Fixtures.mounted))
                  = (Shader.Return (Some (Shader.PNG image)), st))
        by (vm_compute; reflexivity)
  end.
  exact (proj1 (proj2 (proj2 (download_uses_export _ Samples.page 40 _ _ _ _
                                eq_refl eq_refl eq_refl H eq_refl)))).
Defined.

Lemma download_collapsed_witness :
  App.handleDownload (Fixtures.platform Fixtures.all_contexts) Samples.page 40
    (Samples.app Samples.collapsed)
  = App.mkApp
      (Shader.mkRefs
         (Some (Shader.mkGL [Shader.mkFrame (0, 0)%Z (1 # 2) (0, 0)%Z]))
         (Some Shader.Program) (Some (Shader.mkCanvas 0 0 0 0)) (1 # 2))
      None 1 [].
Proof.
  exact (download_collapsed (Fixtures.platform Fixtures.all_contexts)
           Samples.page 40 [] Shader.Program 300 400 0 0 (1 # 2) None 0 []
           eq_refl eq_refl eq_refl (or_introl (proj1 (Z.leb_le 0 0) eq_refl))).
Defined.

Lemma download_after_failed_setup_witness :
  App.downloads
    (App.handleDownload (Fixtures.platform Fixtures.all_contexts) Samples.page 40
       (App.mkApp (Live.setup Samples.no_context None) None 0 []))
  = [App.mkDownload 1700000000 "data:image/png;base64,AAAA"].
Proof.
  exact (f_equal App.downloads
           (download_after_failed_setup Samples.no_context None
              (Fixtures.platform Fixtures.all_contexts) Samples.page 40
              "data:image/png;base64,AAAA" 0 []
              (or_introl eq_refl) eq_refl eq_refl eq_refl)).
Defined.

Lemma handleColorChange_array_witness :
  exists items',
    Panel.handleColorChange 2 "#00ff00" Panel.initial
    = Panel.Fulfilled
        (Panel.mkConfig (Panel.title Panel.initial) (Panel.subtitle Panel.initial)
           (GrsAi.JArray items') (1 # 2) (15 # 100) 40 1 "Inter")
    /\ nth 2 items' GrsAi.JUndefined = GrsAi.JString "#00ff00"
    /\ length items' = 5.
Proof.
  destruct (handleColorChange_array 2 "#00ff00" Panel.initial _ eq_refl)
    as (items' & E & Hn & _ & Hl & _).
  exists items'. split; [exact E|]. split; [exact Hn|].
  exact (Hl (proj1 (Nat.ltb_lt 2 5) eq_refl)).
Defined.

Lemma handleGenerate_blank_witness :
  Panel.handleGenerate Fixtures.world GrsAi.en (Samples.panel "  ")
  = Panel.Fulfilled (Samples.panel "  ").
Proof.
  apply (handleGenerate_blank Fixtures.world GrsAi.en (Samples.panel "  ")).
  repeat constructor.
Defined.

Lemma handleGenerate_completes_witness :
  exists p',
    Panel.handleGenerate Fixtures.world GrsAi.en (Samples.panel "calm harbour")
    = Panel.Fulfilled p'
    /\ Panel.isGenerating p' = false.
Proof.
  destruct (handleGenerate_completes Fixtures.world GrsAi.en
              (Samples.panel "calm harbour") eq_refl)
    as (p' & E & Hg & _).
  exists p'. split; [exact E | exact Hg].
Defined.

Lemma palette_invariant_witness :
  nth 2 match Panel.colors (Panel.config Samples.recoloured) with
        | GrsAi.JArray items => items
        | _ => []
        end GrsAi.JUndefined
  = GrsAi.JString "#00ff00"
  /\ exists items,
       Panel.colors (Panel.config Samples.recoloured) = GrsAi.JArray items
       /\ length items = 5.
Proof.
  split; [reflexivity|].
  exact (palette_invariant Fixtures.world GrsAi.en Samples.recoloured
           (Panel.reach_color Fixtures.world GrsAi.en Samples.generated
              2 "#00ff00" _ _
              (Panel.reach_generate Fixtures.world GrsAi.en
                 (Samples.panel "calm harbour") Samples.generated
                 (Panel.reach_mood Fixtures.world GrsAi.en _ "calm harbour"
                    (Panel.reach_start Fixtures.world GrsAi.en))
                 eq_refl)
              eq_refl (proj1 (Nat.ltb_lt 2 5) eq_refl) eq_refl)).
Defined.

Lemma animate_mounted_witness :
  Live.component
    (Live.animate (Fixtures.platform Fixtures.all_contexts) Samples.window
       Samples.loop)
  = Shader.mkRefs
      (Some (Shader.mkGL
               [Shader.mkFrame (6, 4)%Z ((1 # 2) + (1 # 100) * (1 # 2)) (6, 4)%Z]))
      (Some Shader.Program) (Some (Shader.mkCanvas 6 4 3 2))
      ((1 # 2) + (1 # 100) * (1 # 2)).
Proof.
  exact (f_equal Live.component
           (animate_mounted (Fixtures.platform Fixtures.all_contexts)
              Samples.window [] Shader.Program 300 400 3 2 (1 # 2) 0 (1 # 2))).
Defined.

Lemma download_settles_witness :
  App.snapshotUrl
    (App.handleDownload (Fixtures.platform Fixtures.all_contexts) Samples.page 40
       (Samples.app Fixtures.mounted))
  = None.
Proof.
  exact (proj1 (proj2 (download_settles (Fixtures.platform Fixtures.all_contexts)
                         Samples.page 40 (Samples.app Fixtures.mounted))
                  eq_refl)).
Defined.
